(** * Adopters and adoption centers: a shallow embedding of [frame.py]

    The program is a Python 2 script: a class [AdoptionCenter], a small
    hierarchy of [Adopter] classes that score a center, and two functions
    that rank centers for an adopter and adopters for a center.

    Modelling conventions.
    - Python [int] is [Z]; Python [float] is idealised as an exact rational
      [Q]: no binary64 rounding, no overflow, and none of the exponent
      notation Python 2 prints from 1e50 on; [math.sqrt] of a rational is
      kept exactly, as its radicand (type [root]).
    - The idealisation does not show on moderate inputs, which [in_range]
      delimits.  A statement about the numbers the program returns either
      is made for inputs in that range, or compares two runs, or states
      what is left alone.  Where binary64 may round a product to the other
      side of a tie of ['%.1f'], the statement gives the text of the score
      for products that are [clear_of_ties], and the score to within a
      tenth for all.
    - A Python [dict] with string keys is an association list with unique
      keys; assignment to an existing key replaces its value in place.
    - Adoption centers are mutable objects: they live in a store indexed by
      object identity, and every method runs in a state-and-exception monad
      over that store and the state of the [random] module.
    - [random.random()] reads the next element of a sequence of draws. *)

From Stdlib Require Import ZArith QArith Qround Lia Lqa Bool List.
From Stdlib Require Import Ascii String DecimalString DecimalN DecimalPos.
From Stdlib Require Import Sorted Permutation OrderedTypeEx.
From Equations Require Import Equations.
Import ListNotations.

Local Open Scope Z_scope.

(** ** Python values, exceptions and the monad *)

Inductive pyval : Type :=
| PyInt (z : Z)
| PyFloat (q : Q)
| PyStr (s : string).

Inductive exn : Type :=
| TypeError | AttributeError | KeyError | ValueError | IndexError.

Inductive outcome (A : Type) : Type :=
| Ok (a : A)
| Raise (e : exn).
Arguments Ok {A} a.
Arguments Raise {A} e.

(** ** Dictionaries keyed by strings *)

Definition dict (V : Type) : Type := list (string * V).

Fixpoint dict_get {V} (k : string) (d : dict V) : option V :=
  match d with
  | [] => None
  | (k', v) :: r => if String.eqb k k' then Some v else dict_get k r
  end.

Definition dict_mem {V} (k : string) (d : dict V) : bool :=
  match dict_get k d with Some _ => true | None => false end.

(** [d[k] = v] *)
Fixpoint dict_set {V} (k : string) (v : V) (d : dict V) : dict V :=
  match d with
  | [] => [(k, v)]
  | (k', v') :: r =>
      if String.eqb k k' then (k, v) :: r else (k', v') :: dict_set k v r
  end.

Definition dict_keys {V} (d : dict V) : list string := map fst d.

(** [d.items()] *)
Definition items {V} (d : dict V) : list (string * V) := d.

(** ** The store of objects and the monad of methods *)

Record AdoptionCenter : Type := mkAdoptionCenter {
  name : string;
  species_types : dict Z;
  location : Q * Q
}.

(** Object identity of an adoption center. *)
Definition ref : Type := nat.

(** The state of the [random] module: the draws [random.random()] will
    return, in order. *)
Definition rng : Type := nat -> Q.

Record world : Type := mkWorld {
  objects : ref -> AdoptionCenter;
  rand : rng
}.

Definition M (A : Type) : Type := world -> outcome A * world.

Definition ret {A} (a : A) : M A := fun w => (Ok a, w).

Definition raise {A} (e : exn) : M A := fun w => (Raise e, w).

Definition bind {A B} (m : M A) (f : A -> M B) : M B :=
  fun w =>
    match m w with
    | (Ok a, w') => f a w'
    | (Raise e, w') => (Raise e, w')
    end.

Notation "x <- m ;; k" := (bind m (fun x => k))
  (at level 61, m at next level, right associativity).
Notation "m ;;; k" := (bind m (fun _ => k))
  (at level 61, right associativity).

Definition lift {A} (o : outcome A) : M A := fun w => (o, w).

(** Read the fields of the object behind a reference. *)
Definition deref (r : ref) : M AdoptionCenter :=
  fun w => (Ok (objects w r), w).

(** Overwrite the object behind a reference. *)
Definition assign (r : ref) (c : AdoptionCenter) : M unit :=
  fun w =>
    (Ok tt,
     {| objects := fun r' => if Nat.eqb r' r then c else objects w r';
        rand := rand w |}).

(** [random.random()] *)
Definition random : M Q :=
  fun w =>
    (Ok (rand w 0%nat),
     {| objects := objects w; rand := fun n => rand w (S n) |}).

(** [random.uniform(a, b)] is [a + (b-a) * random()]. *)
Definition uniform (a b : Q) : M Q :=
  u <- random ;; ret (a + (b - a) * u)%Q.

(** A list comprehension [[f x for x in l]]. *)
Fixpoint comprehension {A B} (f : A -> M B) (l : list A) : M (list B) :=
  match l with
  | [] => ret []
  | x :: r => y <- f x ;; ys <- comprehension f r ;; ret (y :: ys)
  end.

(** [all(p x for x in l)]: the generator is consumed up to the first
    false element. *)
Fixpoint all_ {A} (p : A -> M bool) (l : list A) : M bool :=
  match l with
  | [] => ret true
  | x :: r => b <- p x ;; if b then all_ p r else ret false
  end.

(** [for x in l: body x] *)
Fixpoint for_ {A} (l : list A) (body : A -> M unit) : M unit :=
  match l with
  | [] => ret tt
  | x :: r => body x ;;; for_ r body
  end.

(** ** class AdoptionCenter *)

Definition get_number_of_species (self : ref) (animal : string) : M Z :=
  c <- deref self ;;
  if dict_mem animal (species_types c)
  then match dict_get animal (species_types c) with
       | Some n => ret n
       | None => raise KeyError
       end
  else ret 0.

Definition get_location (self : ref) : M (Q * Q) :=
  c <- deref self ;; ret (location c).

Definition get_name (self : ref) : M string :=
  c <- deref self ;; ret (name c).

(** [d.keys] applied to positional arguments: the method takes none. *)
Definition keys {V} (d : dict V) (args : list pyval) : outcome (list string) :=
  match args with
  | [] => Ok (dict_keys d)
  | _ :: _ => Raise TypeError
  end.

(** [self.species_types[x]] *)
Definition getitem (self : ref) (x : string) : M Z :=
  c <- deref self ;;
  match dict_get x (species_types c) with
  | Some n => ret n
  | None => raise KeyError
  end.

(** [self.species_types[x] = n] *)
Definition setitem (self : ref) (x : string) (n : Z) : M unit :=
  c <- deref self ;;
  assign self {| name := name c;
                 species_types := dict_set x n (species_types c);
                 location := location c |}.

(** Attribute lookup on a Python [int]: it has no method [remove]. *)
Definition int_remove (n : Z) : M unit := raise AttributeError.

Definition adopt_pet (self : ref) (species : string) : M unit :=
  c <- deref self ;;
  ks <- lift (keys (species_types c) [PyInt 0]) ;;
  for_ ks (fun x =>
    n <- getitem self x ;;
    if n <=? 0
    then m <- getitem self x ;; int_remove m
    else ret tt) ;;;
  n <- getitem self species ;;
  setitem self species (n - 1).

(** ** Numbers as text: the pattern ['%.1f'] and the builtin [float] *)

Definition Qltb (a b : Q) : bool := negb (Qle_bool b a).

(** Nearest integer, ties to the even neighbour. *)
Definition round_half_even (x : Q) : Z :=
  let fl := Qfloor x in
  match (x - inject_Z fl ?= 1 # 2)%Q with
  | Lt => fl
  | Gt => fl + 1
  | Eq => if Z.even fl then fl else fl + 1
  end.

(** The number of tenths that ['%.1f'] prints for [x]. *)
Definition tenths (x : Q) : Z := round_half_even (x * 10)%Q.

Definition decimal (n : Z) : string :=
  NilZero.string_of_uint (N.to_uint (Z.to_N n)).

(** ['%.1f' % x]: sign, integer digits, a point and one digit.  A negative
    number that rounds to zero keeps its sign.  The rounding is that of the
    exact number; binary64 prints the same text unless the number is within
    its last bit of a tie. *)
Definition format_1f (x : Q) : string :=
  let m := Z.abs (tenths x) in
  ((if Qltb x 0 then "-" else "")
     ++ decimal (m / 10)%Z ++ "." ++ decimal (m mod 10)%Z)%string.

(** [self.score % x], where [Adopter.__init__] stores [self.score = '%.1f']
    and nothing reassigns it. *)
Definition score_format (x : Q) : pyval := PyStr (format_1f x).

(** Cut a string at its first point. *)
Fixpoint split_point (s : string) : string * option string :=
  match s with
  | EmptyString => (EmptyString, None)
  | String c r =>
      if Ascii.eqb c "."
      then (EmptyString, Some r)
      else let (a, b) := split_point r in (String c a, b)
  end.

Definition digits_value (s : string) : option Z :=
  option_map (fun u => Z.of_N (N.of_uint u)) (NilEmpty.uint_of_string s).

(** Digits with an optional point; at least one digit. *)
Definition unsigned_literal (s : string) : option Q :=
  match split_point s with
  | (EmptyString, None) => None
  | (i, None) => option_map inject_Z (digits_value i)
  | (EmptyString, Some EmptyString) => None
  | (i, Some f) =>
      match digits_value i, digits_value f with
      | Some a, Some b =>
          Some (inject_Z a + inject_Z b / inject_Z (10 ^ Z.of_nat (String.length f)))%Q
      | _, _ => None
      end
  end.

(** [float(s)] on the decimal literals ['%.1f'] prints: an optional sign
    and digits with an optional point.  Other text is a [ValueError]. *)
Definition float_of_string (s : string) : outcome Q :=
  let (neg, body) :=
    match s with
    | String c r =>
        if Ascii.eqb c "-" then (true, r)
        else if Ascii.eqb c "+" then (false, r)
        else (false, s)
    | EmptyString => (false, s)
    end in
  match unsigned_literal body with
  | Some q => Ok (if neg then - q else q)%Q
  | None => Raise ValueError
  end.

(** The builtin [float], idealised: the exact number an int or a decimal
    numeral denotes. *)
Definition float (v : pyval) : outcome Q :=
  match v with
  | PyInt z => Ok (inject_Z z)
  | PyFloat q => Ok q
  | PyStr s => float_of_string s
  end.

(** ** Numeric helpers *)

(** [sum(l)] on a list of ints. *)
Definition sum (l : list Z) : Z := fold_left Z.add l 0.

(** [min(l)]: the first least element; the empty list is a [ValueError]. *)
Definition min_ (l : list Q) : outcome Q :=
  match l with
  | [] => Raise ValueError
  | x :: r => Ok (fold_left (fun m y => if Qltb y m then y else m) r x)
  end.

(** [k in d] and [d[k]] for a key computed at run time. *)
Definition contains {V} (d : dict V) (k : pyval) : bool :=
  match k with
  | PyStr s => dict_mem s d
  | _ => false
  end.

Definition subscript {V} (d : dict V) (k : pyval) : outcome V :=
  match k with
  | PyStr s =>
      match dict_get s d with Some v => Ok v | None => Raise KeyError end
  | _ => Raise KeyError
  end.

(** [l[i]] on a list: a negative index counts from the end. *)
Definition index {A} (l : list A) (i : Z) : outcome A :=
  let n := Z.of_nat (List.length l) in
  let j := if i <? 0 then i + n else i in
  if (j <? 0) || (n <=? j) then Raise IndexError
  else match nth_error l (Z.to_nat j) with
       | Some v => Ok v
       | None => Raise IndexError
       end.

(** The non-negative square root of a rational, kept as its radicand. *)
Record root : Type := Sqrt { radicand : Q }.

(** [math.sqrt] *)
Definition math_sqrt (x : Q) : outcome root :=
  if Qltb x 0 then Raise ValueError else Ok (Sqrt x).

(** [x < b] for a root [x] and an int [b]. *)
Definition root_lt_int (x : root) (b : Z) : bool :=
  (0 <? b) && Qltb (radicand x) (inject_Z (b * b)).

(** The loop of [bisect.bisect_right(a, x, lo, hi)]. *)
Equations? bisect_loop (a : list Z) (x : root) (lo hi : nat) : outcome nat
  by wf (hi - lo)%nat lt :=
  bisect_loop a x lo hi with lt_dec lo hi => {
    | right _ := Ok lo;
    | left _ with nth_error a ((lo + hi) / 2)%nat => {
        | None := Raise IndexError;
        | Some v with root_lt_int x v => {
            | true := bisect_loop a x lo ((lo + hi) / 2)%nat;
            | false := bisect_loop a x ((lo + hi) / 2 + 1)%nat hi } } }.
Proof.
  all: change (fst (Nat.divmod (lo + hi) 1 0 1)) with ((lo + hi) / 2)%nat;
    pose proof (Nat.div_mod_eq (lo + hi) 2);
    pose proof (Nat.mod_upper_bound (lo + hi) 2); lia.
Qed.

(** [bisect.bisect(a, x)], an alias of [bisect_right]. *)
Definition bisect (a : list Z) (x : root) : outcome nat :=
  bisect_loop a x 0 (List.length a).

(** ** The adopter classes *)

(** A constructor argument that is either one species or a list of them. *)
Inductive species_arg : Type :=
| One (s : string)
| Many (l : list string).

(** [[x] if type(x) != list else x] *)
Definition as_list (a : species_arg) : list string :=
  match a with
  | One s => [s]
  | Many l => l
  end.

Module Adopter.
Record t : Type := make { name : string; desired_species : string }.

Definition get_name (self : t) : string := name self.

Definition get_desired_species (self : t) : string := desired_species self.

Definition get_score (self : t) (adoption_center : ref) : M Z :=
  get_number_of_species adoption_center (desired_species self).

Definition get_score_other (self : t) (adoption_center : ref)
    (other : string) : M Z :=
  get_number_of_species adoption_center other.

Definition _get_score := get_score.
End Adopter.

Module FlexibleAdopter.
Record t : Type := make {
  base : Adopter.t;
  considered_species : list string
}.

(** The value of the local variable [score]. *)
Definition raw_score (self : t) (adoption_center : ref) : M Q :=
  own <- Adopter._get_score (base self) adoption_center ;;
  others <- comprehension
              (fun x => Adopter.get_score_other (base self) adoption_center x)
              (considered_species self) ;;
  ret (inject_Z own + (3 # 10) * inject_Z (sum others))%Q.

Definition get_score (self : t) (adoption_center : ref) : M pyval :=
  score <- raw_score self adoption_center ;;
  ret (score_format score).
End FlexibleAdopter.

Module FearfulAdopter.
Record t : Type := make {
  base : Adopter.t;
  feared_species : list string
}.

Definition init (name desired_species : string) (feared : species_arg) : t :=
  make (Adopter.make name desired_species) (as_list feared).

Definition raw_score (self : t) (adoption_center : ref) : M Q :=
  own <- Adopter._get_score (base self) adoption_center ;;
  others <- comprehension
              (fun x => Adopter.get_score_other (base self) adoption_center x)
              (feared_species self) ;;
  ret (inject_Z own - (3 # 10) * inject_Z (sum others))%Q.

Definition get_score (self : t) (adoption_center : ref) : M pyval :=
  score <- raw_score self adoption_center ;;
  ret (score_format score).
End FearfulAdopter.

Module AllergicAdopter.
Record t : Type := make {
  base : Adopter.t;
  allergic_species : list string
}.

Definition init (name desired_species : string) (allergic : species_arg) : t :=
  make (Adopter.make name desired_species) (as_list allergic).

(** [all(not adoption_center.get_number_of_species(i) for i in ...)] *)
Definition none_present (self : t) (adoption_center : ref) : M bool :=
  all_ (fun i => n <- get_number_of_species adoption_center i ;;
                 ret (n =? 0))
       (allergic_species self).

Definition get_score (self : t) (adoption_center : ref) : M pyval :=
  clear <- none_present self adoption_center ;;
  if clear
  then score <- Adopter._get_score (base self) adoption_center ;;
       ret (score_format (inject_Z score))
  else ret (PyInt 0).
End AllergicAdopter.

Module MedicatedAllergicAdopter.
Record t : Type := make {
  base : AllergicAdopter.t;
  medicine_effectiveness : dict Q
}.

(** [[x if adoption_center.get_number_of_species(x) else 0 for x in ...]] *)
Definition present_or_zero (self : t) (adoption_center : ref)
    : M (list pyval) :=
  comprehension
    (fun x => n <- get_number_of_species adoption_center x ;;
              ret (if n =? 0 then PyInt 0 else PyStr x))
    (AllergicAdopter.allergic_species (base self)).

(** [self.medicine_effectiveness[i] if i in self.medicine_effectiveness
    else 1] *)
Definition effectiveness (self : t) (i : pyval) : M Q :=
  if contains (medicine_effectiveness self) i
  then lift (subscript (medicine_effectiveness self) i)
  else ret 1%Q.

Definition coefficient (self : t) (adoption_center : ref) : M Q :=
  found <- present_or_zero self adoption_center ;;
  effs <- comprehension (effectiveness self) found ;;
  lift (min_ effs).

(** The value of [score] in the [else] branch. *)
Definition raw_score (self : t) (adoption_center : ref) : M Q :=
  c <- coefficient self adoption_center ;;
  own <- Adopter._get_score (AllergicAdopter.base (base self))
           adoption_center ;;
  ret (c * inject_Z own)%Q.

Definition get_score (self : t) (adoption_center : ref) : M pyval :=
  clear <- AllergicAdopter.none_present (base self) adoption_center ;;
  if clear
  then score <- Adopter._get_score (AllergicAdopter.base (base self))
                  adoption_center ;;
       ret (score_format (inject_Z score))
  else score <- raw_score self adoption_center ;;
       ret (score_format score).
End MedicatedAllergicAdopter.

Module SluggishAdopter.
Record t : Type := make {
  base : Adopter.t;
  location : Q * Q
}.

Definition distance (self : t) (adoption_center : ref) : M root :=
  l0 <- get_location adoption_center ;;
  l1 <- get_location adoption_center ;;
  lift (math_sqrt ((fst l0 - fst (location self)) ^ 2
                   + (snd l1 - snd (location self)) ^ 2)%Q).

Definition breakpoints : list Z := [1; 3; 5; 7].

(** [mapping = [1, rand.uniform(0.7, 0.9), rand.uniform(0.5, 0.7),
    rand.uniform(0.1, 0.5)]] *)
Definition mapping : M (list Q) :=
  r1 <- uniform (7 # 10) (9 # 10) ;;
  r2 <- uniform (5 # 10) (7 # 10) ;;
  r3 <- uniform (1 # 10) (5 # 10) ;;
  ret [1%Q; r1; r2; r3].

(** [mapping[bisect.bisect(breakpoints, distance) - 1]] *)
Definition coefficient (m : list Q) (d : root) : outcome Q :=
  match bisect breakpoints d with
  | Ok k => index m (Z.of_nat k - 1)
  | Raise e => Raise e
  end.

(** The number that is formatted: [score * mapping[...]]. *)
Definition raw_score (self : t) (adoption_center : ref) : M Q :=
  score <- Adopter._get_score (base self) adoption_center ;;
  d <- distance self adoption_center ;;
  m <- mapping ;;
  c <- lift (coefficient m d) ;;
  ret (inject_Z score * c)%Q.

Definition get_score (self : t) (adoption_center : ref) : M pyval :=
  x <- raw_score self adoption_center ;;
  ret (score_format x).
End SluggishAdopter.

(** An adopter of any class; [get_score] dispatches on the class. *)
Inductive adopter : Type :=
| IsAdopter (a : Adopter.t)
| IsFlexible (a : FlexibleAdopter.t)
| IsFearful (a : FearfulAdopter.t)
| IsAllergic (a : AllergicAdopter.t)
| IsMedicated (a : MedicatedAllergicAdopter.t)
| IsSluggish (a : SluggishAdopter.t).

Definition adopter_base (a : adopter) : Adopter.t :=
  match a with
  | IsAdopter a => a
  | IsFlexible a => FlexibleAdopter.base a
  | IsFearful a => FearfulAdopter.base a
  | IsAllergic a => AllergicAdopter.base a
  | IsMedicated a => AllergicAdopter.base (MedicatedAllergicAdopter.base a)
  | IsSluggish a => SluggishAdopter.base a
  end.

Definition adopter_get_name (a : adopter) : string :=
  Adopter.get_name (adopter_base a).

Definition get_score (a : adopter) (adoption_center : ref) : M pyval :=
  match a with
  | IsAdopter a => n <- Adopter.get_score a adoption_center ;; ret (PyInt n)
  | IsFlexible a => FlexibleAdopter.get_score a adoption_center
  | IsFearful a => FearfulAdopter.get_score a adoption_center
  | IsAllergic a => AllergicAdopter.get_score a adoption_center
  | IsMedicated a => MedicatedAllergicAdopter.get_score a adoption_center
  | IsSluggish a => SluggishAdopter.get_score a adoption_center
  end.

(** ** Sorting and the two ranking functions *)

(** The sort key [(float(x[1]), x[0])]. *)
Definition key : Type := (Q * string)%type.

(** Tuples compare lexicographically; strings compare by character code. *)
Definition key_lt (a b : key) : bool :=
  match (fst a ?= fst b)%Q with
  | Lt => true
  | Gt => false
  | Eq => String.ltb (snd a) (snd b)
  end.

Definition sort_key (x : string * pyval) : outcome key :=
  match float (snd x) with
  | Ok f => Ok (f, fst x)
  | Raise e => Raise e
  end.

(** [sorted] computes the key of every element before it compares any. *)
Fixpoint decorate {A} (f : A -> outcome key) (l : list A)
    : outcome (list (key * A)) :=
  match l with
  | [] => Ok []
  | x :: r =>
      match f x with
      | Raise e => Raise e
      | Ok k =>
          match decorate f r with
          | Raise e => Raise e
          | Ok d => Ok ((k, x) :: d)
          end
      end
  end.

(** [sorted] is stable, also with [reverse=True]: an element moves behind
    another one only when its key is strictly smaller. *)
Fixpoint insert_desc {A} (x : key * A) (l : list (key * A)) : list (key * A) :=
  match l with
  | [] => [x]
  | y :: r =>
      if key_lt (fst x) (fst y) then y :: insert_desc x r else x :: y :: r
  end.

Definition sort_desc {A} (l : list (key * A)) : list (key * A) :=
  fold_right insert_desc [] l.

(** [sorted(l, key=f, reverse=True)] *)
Definition sorted_reverse {A} (f : A -> outcome key) (l : list A)
    : outcome (list A) :=
  match decorate f l with
  | Ok d => Ok (map snd (sort_desc d))
  | Raise e => Raise e
  end.

(** [l[:n]] *)
Definition slice_to {A} (l : list A) (n : Z) : list A :=
  let len := Z.of_nat (List.length l) in
  let stop := if n <? 0 then Z.max 0 (len + n) else n in
  firstn (Z.to_nat stop) l.

(** [{i.get_name(): adopter.get_score(i) for i in list_of_adoption_centers}];
    Python 2 evaluates the value of an entry before its key. *)
Fixpoint center_scores (a : adopter) (l : list ref) (d : dict pyval)
    : M (dict pyval) :=
  match l with
  | [] => ret d
  | i :: r =>
      v <- get_score a i ;;
      k <- get_name i ;;
      center_scores a r (dict_set k v d)
  end.

Definition get_ordered_adoption_center_list (a : adopter)
    (list_of_adoption_centers : list ref)
    : M (dict (list (string * pyval))) :=
  d <- center_scores a list_of_adoption_centers [] ;;
  sorted_ac <- lift (sorted_reverse sort_key (items d)) ;;
  ret [(adopter_get_name a, sorted_ac)].

(** [{i.get_name(): i.get_score(adoption_center) for i in list_of_adopters}] *)
Fixpoint adopter_scores (adoption_center : ref) (l : list adopter)
    (d : dict pyval) : M (dict pyval) :=
  match l with
  | [] => ret d
  | i :: r =>
      v <- get_score i adoption_center ;;
      adopter_scores adoption_center r (dict_set (adopter_get_name i) v d)
  end.

Definition get_adopters_for_advertisement (adoption_center : ref)
    (list_of_adopters : list adopter) (n : Z)
    : M (dict (list (string * pyval))) :=
  d <- adopter_scores adoption_center list_of_adopters [] ;;
  sorted_adopters <- lift (sorted_reverse sort_key (items d)) ;;
  k <- get_name adoption_center ;;
  ret [(k, slice_to sorted_adopters n)].

(** ** The demonstration data of the script

    The names the script binds twice have their later value here. *)

Definition adopter1 : adopter :=
  IsMedicated
    (MedicatedAllergicAdopter.make
       (AllergicAdopter.init "One" "Cat" (Many ["Dog"; "Horse"]%string))
       [("Dog", 5 # 10); ("Horse", 2 # 10)]%string).
Definition adopter2 : adopter := IsAdopter (Adopter.make "Two" "Cat").
Definition adopter3 : adopter :=
  IsFlexible (FlexibleAdopter.make (Adopter.make "Three" "Horse")
                ["Lizard"; "Cat"]%string).
Definition adopter4 : adopter :=
  IsFearful (FearfulAdopter.init "Four" "Cat" (One "Dog")).
Definition adopter5 : adopter :=
  IsSluggish (SluggishAdopter.make (Adopter.make "Five" "Cat") (1, 2)%Q).
Definition adopter6 : adopter :=
  IsAllergic (AllergicAdopter.init "Six" "Lizard" (One "Cat")).

Definition ac1 : AdoptionCenter :=
  mkAdoptionCenter "Place1" [("Cat", 12); ("Dog", 2)]%string (1, 1)%Q.
Definition ac2 : AdoptionCenter :=
  mkAdoptionCenter "Place2" [("Cat", 12); ("Lizard", 2)]%string (3, 5)%Q.
Definition ac3 : AdoptionCenter :=
  mkAdoptionCenter "Place3" [("Cat", 40); ("Dog", 4)]%string (-2, 10)%Q.
Definition ac4 : AdoptionCenter :=
  mkAdoptionCenter "Place4" [("Cat", 33); ("Horse", 5)]%string (-3, 0)%Q.
Definition ac5 : AdoptionCenter :=
  mkAdoptionCenter "Place5" [("Cat", 45); ("Lizard", 2)]%string (8, -2)%Q.
Definition ac6 : AdoptionCenter :=
  mkAdoptionCenter "Place6" [("Cat", 23); ("Dog", 7); ("Horse", 5)]%string
    (-10, 10)%Q.

(** A store holding the given centers at references 0, 1, ... *)
Definition store (l : list AdoptionCenter) : ref -> AdoptionCenter :=
  fun r => nth r l (mkAdoptionCenter "" [] (0, 0)%Q).

Definition demo_world : world :=
  mkWorld (store [ac1; ac2; ac3; ac4; ac5; ac6]) (fun _ => 1 # 2).

(** ** Vocabulary of the statements *)

(** The count a center holds of a species, absent species counting 0. *)
Definition count (c : AdoptionCenter) (s : string) : Z :=
  match dict_get s (species_types c) with
  | Some n => n
  | None => 0
  end.

(** A computation that neither raises nor changes the world. *)
Definition reads {A} (m : M A) (f : world -> A) : Prop :=
  forall w, m w = (Ok (f w), w).

(** A computation that leaves every stored object as it was, whether it
    returns or raises. *)
Definition frames {A} (m : M A) : Prop :=
  forall w, objects (snd (m w)) = objects w.

(** The multiplier of a species under a medicine table. *)
Definition multiplier (eff : dict Q) (x : string) : Q :=
  match dict_get x eff with
  | Some q => q
  | None => 1%Q
  end.

(** The number a class formats into its score, before formatting. *)
Definition raw_score (a : adopter) (adoption_center : ref) : M Q :=
  match a with
  | IsAdopter a =>
      n <- Adopter.get_score a adoption_center ;; ret (inject_Z n)
  | IsFlexible a => FlexibleAdopter.raw_score a adoption_center
  | IsFearful a => FearfulAdopter.raw_score a adoption_center
  | IsAllergic a =>
      clear <- AllergicAdopter.none_present a adoption_center ;;
      if clear
      then n <- Adopter._get_score (AllergicAdopter.base a) adoption_center ;;
           ret (inject_Z n)
      else ret 0%Q
  | IsMedicated a =>
      clear <- AllergicAdopter.none_present
                 (MedicatedAllergicAdopter.base a) adoption_center ;;
      if clear
      then n <- Adopter._get_score
                  (AllergicAdopter.base (MedicatedAllergicAdopter.base a))
                  adoption_center ;;
           ret (inject_Z n)
      else MedicatedAllergicAdopter.raw_score a adoption_center
  | IsSluggish a => SluggishAdopter.raw_score a adoption_center
  end.

(** [x] stands before [y] in a ranking: a greater score, or the same score
    and a greater name; scores are compared as [float] reads them. *)
Definition ranked_before (x y : string * pyval) : Prop :=
  exists fx fy,
    float (snd x) = Ok fx /\ float (snd y) = Ok fy /\
    (fy < fx \/ (fy == fx /\ String.ltb (fst y) (fst x) = true))%Q.

(** What a score looks like: an int, or a one-decimal rendering. *)
Definition score_shaped (v : pyval) : Prop :=
  (exists n, v = PyInt n) \/ (exists x, v = PyStr (format_1f x)).

(** The square of the distance between a sluggish adopter and a center. *)
Definition distance2 (a : SluggishAdopter.t) (c : AdoptionCenter) : Q :=
  ((fst (location c) - fst (SluggishAdopter.location a)) ^ 2
   + (snd (location c) - snd (SluggishAdopter.location a)) ^ 2)%Q.

(** The three values [rand.uniform] yields while [mapping] is built. *)
Definition draw1 (g : rng) : Q := ((7 # 10) + ((9 # 10) - (7 # 10)) * g 0%nat)%Q.
Definition draw2 (g : rng) : Q := ((5 # 10) + ((7 # 10) - (5 # 10)) * g 1%nat)%Q.
Definition draw3 (g : rng) : Q := ((1 # 10) + ((5 # 10) - (1 # 10)) * g 2%nat)%Q.

(** The state of the generator after three draws. *)
Definition after_draws (w : world) : world :=
  {| objects := objects w; rand := fun n => rand w (S (S (S n))) |}.

(** The coefficient the bisection selects, by the square [q] of the
    distance: the entry before the bucket of [q], and the last entry when
    there is none before. *)
Definition selected (q r1 r2 r3 : Q) : Q :=
  if Qltb q 1 then r3
  else if Qltb q 9 then 1%Q
  else if Qltb q 25 then r1
  else if Qltb q 49 then r2
  else r3.

(** The multipliers [min] ranges over for a medicated adopter. *)
Definition multipliers (a : MedicatedAllergicAdopter.t) (c : AdoptionCenter)
    : list Q :=
  map (fun x => if count c x =? 0 then 1%Q
                else multiplier (MedicatedAllergicAdopter.medicine_effectiveness a) x)
      (AllergicAdopter.allergic_species (MedicatedAllergicAdopter.base a)).

(** The data-model invariant: no species has a negative count. *)
Definition nonneg_inventory (c : AdoptionCenter) : Prop :=
  Forall (fun e => 0 <= snd e) (species_types c).


(** [x] may stand before [y]: its key is not below the key of [y]. *)
Definition not_below {A} (x y : key * A) : Prop :=
  key_lt (fst x) (fst y) = false.

(** A dictionary of scores: one entry per name, each value a score. *)
Definition scores_ok (d : dict pyval) : Prop :=
  NoDup (map fst d) /\ Forall (fun x => score_shaped (snd x)) d.

(** ** The range of the idealisation

    With counts below 2^31, multipliers up to 16 and whole coordinates
    below 2^25, every number the classes form stays far inside the range
    and the precision of binary64: no conversion of an int to a float
    fails, the square of a distance is an exact int, no product is a
    negative zero, and two scores that differ by a tenth are different
    floats.  The statements about what [get_score] and the rankings return
    are made for inputs in this range. *)

(** A count in range: not negative and below 2^31. *)
Definition modest (n : Z) : Prop := 0 <= n < 2 ^ 31.

(** A pair of whole coordinates, as the script has them, below 2^25 in
    absolute value: the square of a distance between two such places is an
    int below 2^53. *)
Definition whole_place (p : Q * Q) : Prop :=
  exists x y : Z,
    p = (inject_Z x, inject_Z y)
    /\ - 2 ^ 25 < x < 2 ^ 25 /\ - 2 ^ 25 < y < 2 ^ 25.

(** The numbers the score of [a] at [c] is made of are in range: the count
    of the desired species and, by class, the sum of the other counts, the
    multipliers of the medicine table, the two locations. *)
Definition in_range (a : adopter) (c : AdoptionCenter) : Prop :=
  match a with
  | IsAdopter a => modest (count c (Adopter.desired_species a))
  | IsFlexible a =>
      modest (count c (Adopter.desired_species (FlexibleAdopter.base a)))
      /\ modest (sum (map (count c) (FlexibleAdopter.considered_species a)))
  | IsFearful a =>
      modest (count c (Adopter.desired_species (FearfulAdopter.base a)))
      /\ modest (sum (map (count c) (FearfulAdopter.feared_species a)))
  | IsAllergic a =>
      modest (count c (Adopter.desired_species (AllergicAdopter.base a)))
  | IsMedicated a =>
      modest (count c (Adopter.desired_species
                         (AllergicAdopter.base (MedicatedAllergicAdopter.base a))))
      /\ Forall (fun e => 0 <= snd e <= 16)%Q
           (MedicatedAllergicAdopter.medicine_effectiveness a)
  | IsSluggish a =>
      modest (count c (Adopter.desired_species (SluggishAdopter.base a)))
      /\ whole_place (location c)
      /\ whole_place (SluggishAdopter.location a)
  end.

(** [x] is not within a thousandth of a tie of ['%.1f'], a number halfway
    between two tenths.  In range, binary64 is off by far less, so that it
    prints for [x] the text of the exact number. *)
Definition clear_of_ties (x : Q) : Prop :=
  let f := (x * 10 - inject_Z (Qfloor (x * 10)))%Q in
  (f <= 49 # 100 \/ 51 # 100 <= f)%Q.

(** The numeral of [t] tenths with one decimal place, [t] not negative,
    with or without a sign. *)
Definition one_decimal (neg : bool) (t : Z) : string :=
  ((if neg then "-" else "")
     ++ decimal (t / 10) ++ "." ++ decimal (t mod 10))%string.

(** ** Inputs of the examples *)

Definition medicated_example_center : AdoptionCenter :=
  mkAdoptionCenter "Place" [("Cat", 12); ("Dog", 2); ("Horse", 9)]%string (0, 0)%Q.

Definition medicated_example_world : world :=
  mkWorld (store [medicated_example_center]) (fun _ => 0%Q).



Definition flexible_example_world : world :=
  mkWorld (store [mkAdoptionCenter "Place3" [("Horse", 25); ("Dog", 9)]%string
                    (-2, 10)%Q])
          (fun _ => 0%Q).





Definition same_name_world : world :=
  mkWorld (store [ac1;
                  mkAdoptionCenter "Place1" [("Cat", 40); ("Dog", 4)]%string
                    (-2, 10)%Q])
          (fun _ => 0%Q).


(** ** Vocabulary of the rankings *)

(** The class that draws random numbers. *)
Definition is_sluggish (a : adopter) : bool :=
  match a with
  | IsSluggish _ => true
  | _ => false
  end.

(** The names of the centers behind a list of references. *)
Definition center_names (w : world) (l : list ref) : list string :=
  map (fun c => name (objects w c)) l.

(** The names of a list of adopters. *)
Definition adopter_names (l : list adopter) : list string :=
  map adopter_get_name l.

(** The state of the random module after [k] calls of a sluggish adopter's
    [get_score], three draws each. *)
Definition draws (k : nat) (w : world) : world := Nat.iter k after_draws w.

(** The sluggish adopters of a list. *)
Definition sluggish_count (l : list adopter) : nat :=
  List.length (filter is_sluggish l).

(** [e] is the entry the ranking of centers keeps for its name: the name of
    a center of the list that no later center of the list bears, with the
    score [get_score] returns for that center after the calls for the
    centers listed before it, each of which took three draws if the adopter
    is sluggish and none otherwise. *)
Definition center_entry (a : adopter) (l : list ref) (w : world)
    (e : string * pyval) : Prop :=
  exists l1 c l2,
    l = l1 ++ c :: l2
    /\ fst e = name (objects w c)
    /\ ~ In (fst e) (center_names w l2)
    /\ fst (get_score a c (draws (if is_sluggish a then List.length l1 else 0) w))
       = Ok (snd e).

(** The same for the ranking of adopters: the calls for the sluggish
    adopters listed before have taken three draws each. *)
Definition adopter_entry (c : ref) (l : list adopter) (w : world)
    (e : string * pyval) : Prop :=
  exists l1 a l2,
    l = l1 ++ a :: l2
    /\ fst e = adopter_get_name a
    /\ ~ In (fst e) (adopter_names l2)
    /\ fst (get_score a c (draws (sluggish_count l1) w)) = Ok (snd e).

(** The score [get_score] returns in state [w] (0 if it raised). *)
Definition score_at (a : adopter) (c : ref) (w : world) : pyval :=
  match fst (get_score a c w) with
  | Ok v => v
  | Raise _ => PyInt 0
  end.

(** [d[k] = v] for every pair [(k, v)] of a list, in order. *)
Definition set_all (es : list (string * pyval)) (d : dict pyval) : dict pyval :=
  fold_left (fun d e => dict_set (fst e) (snd e) d) es d.

(** A medicine table with a multiplier above 1. *)
Definition capped_adopter : MedicatedAllergicAdopter.t :=
  MedicatedAllergicAdopter.make
    (AllergicAdopter.init "Cap" "Cat" (Many ["Dog"; "Horse"]%string))
    [("Dog", 2 # 1)]%string.

(** ** The definitions on concrete inputs *)

Example format_1f_ex1 : format_1f (12 * (2 # 10)) = "2.4"%string.
Proof. reflexivity. Qed.

Example format_1f_ex2 : format_1f (12 - (3 # 10) * 2) = "11.4"%string.
Proof. reflexivity. Qed.

Example format_1f_ex3 : format_1f (- (4 # 100)) = "-0.0"%string.
Proof. reflexivity. Qed.

Example format_1f_ex4 : format_1f (1 # 4) = "0.2"%string.
Proof. reflexivity. Qed.

Example format_1f_ex5 : format_1f (-(125 # 10)) = "-12.5"%string.
Proof. vm_compute. reflexivity. Qed.

Example float_ex1 : float (PyStr "11.4") = Ok (11 + 4 / 10)%Q.
Proof. vm_compute. reflexivity. Qed.

Example bisect_ex1 : bisect [1; 3; 5; 7] (Sqrt 0) = Ok 0%nat.
Proof. reflexivity. Qed.

Example bisect_ex2 : bisect [1; 3; 5; 7] (Sqrt 1) = Ok 1%nat.
Proof. reflexivity. Qed.

Example bisect_ex3 : bisect [1; 3; 5; 7] (Sqrt (49 # 1)) = Ok 4%nat.
Proof. reflexivity. Qed.

Example demo_ranking :
  fst (get_ordered_adoption_center_list adopter4 [0; 1; 2; 3; 4; 5]%nat
         demo_world)
  = Ok [("Four", [("Place5", PyStr "45.0"); ("Place3", PyStr "38.8");
                  ("Place4", PyStr "33.0"); ("Place6", PyStr "20.9");
                  ("Place2", PyStr "12.0"); ("Place1", PyStr "11.4")])]%string.
Proof. vm_compute. reflexivity. Qed.

(** ** The monad: running binds and reads *)

Lemma bind_reads {A B} (m : M A) (f : world -> A) (k : A -> M B) w :
  reads m f -> bind m k w = k (f w) w.
Proof. intros H. unfold bind. rewrite H. reflexivity. Qed.

Lemma reads_get_number_of_species r s :
  reads (get_number_of_species r s) (fun w => count (objects w r) s).
Proof.
  intros w. unfold get_number_of_species, bind, deref, count, dict_mem. simpl.
  destruct (dict_get s (species_types (objects w r))); reflexivity.
Qed.

Lemma reads_get_location r :
  reads (get_location r) (fun w => location (objects w r)).
Proof. intros w. reflexivity. Qed.

Lemma reads_get_name r : reads (get_name r) (fun w => name (objects w r)).
Proof. intros w. reflexivity. Qed.

Lemma reads_comprehension {A B} (g : A -> M B) (h : world -> A -> B) l :
  (forall x, reads (g x) (fun w => h w x)) ->
  reads (comprehension g l) (fun w => map (h w) l).
Proof.
  intros Hg. induction l as [|x l IH]; intros w; simpl.
  - reflexivity.
  - rewrite (bind_reads _ _ _ _ (Hg x)).
    rewrite (bind_reads _ _ _ _ IH). reflexivity.
Qed.

Lemma reads_all {A} (p : A -> M bool) (h : world -> A -> bool) l :
  (forall x, reads (p x) (fun w => h w x)) ->
  reads (all_ p l) (fun w => forallb (h w) l).
Proof.
  intros Hp. induction l as [|x l IH]; intros w; simpl.
  - reflexivity.
  - rewrite (bind_reads _ _ _ _ (Hp x)).
    destruct (h w x); simpl; [apply IH | reflexivity].
Qed.

(** ** Numbers: comparison, printing and reading back *)

Lemma Qltb_spec a b : reflect (a < b)%Q (Qltb a b).
Proof.
  unfold Qltb. destruct (Qle_bool b a) eqn:E; constructor.
  - apply Qle_bool_iff in E. lra.
  - apply Qnot_le_lt. intros H'. apply Qle_bool_iff in H'. congruence.
Qed.

(** *** Printing and reading back *)

Lemma to_uint_nonnil n : N.to_uint n <> Decimal.Nil.
Proof.
  destruct n; simpl; [discriminate | apply DecimalPos.Unsigned.to_uint_nonnil].
Qed.

Lemma decimal_digits n : decimal n = NilEmpty.string_of_uint (N.to_uint (Z.to_N n)).
Proof.
  unfold decimal, NilZero.string_of_uint.
  pose proof (to_uint_nonnil (Z.to_N n)) as H.
  destruct (N.to_uint (Z.to_N n)); congruence.
Qed.

Lemma split_point_digits d t :
  split_point (NilEmpty.string_of_uint d ++ String "." t)
  = (NilEmpty.string_of_uint d, Some t).
Proof. induction d; simpl; rewrite ?IHd; reflexivity. Qed.

Lemma digits_value_decimal n : 0 <= n -> digits_value (decimal n) = Some n.
Proof.
  intros H. rewrite decimal_digits. unfold digits_value.
  rewrite NilEmpty.usu. simpl. rewrite DecimalN.Unsigned.of_to.
  rewrite Z2N.id by exact H. reflexivity.
Qed.

Lemma decimal_head n :
  exists c s, decimal n = String c s /\ c <> "-"%char /\ c <> "+"%char
              /\ c <> "."%char.
Proof.
  rewrite decimal_digits. pose proof (to_uint_nonnil (Z.to_N n)) as H.
  destruct (N.to_uint (Z.to_N n)); try congruence; simpl;
    eexists; eexists; (split; [reflexivity|]); repeat split; discriminate.
Qed.

Lemma decimal_digit k : 0 <= k < 10 -> String.length (decimal k) = 1%nat.
Proof.
  intros H.
  assert (k = 0 \/ k = 1 \/ k = 2 \/ k = 3 \/ k = 4 \/ k = 5 \/ k = 6
          \/ k = 7 \/ k = 8 \/ k = 9) as D by lia.
  repeat (destruct D as [-> | D]; [reflexivity|]). subst. reflexivity.
Qed.

Lemma unsigned_literal_decimal a b :
  0 <= a -> 0 <= b < 10 ->
  unsigned_literal (decimal a ++ "." ++ decimal b)
  = Some (inject_Z a + inject_Z b / inject_Z (10 ^ 1))%Q.
Proof.
  intros Ha Hb. unfold unsigned_literal.
  rewrite (decimal_digits a) at 1. simpl append.
  rewrite split_point_digits. rewrite <- decimal_digits.
  rewrite (digits_value_decimal a Ha), (digits_value_decimal b) by lia.
  rewrite (decimal_digit b Hb).
  destruct (decimal_head a) as (c & s & -> & _).
  reflexivity.
Qed.

Lemma round_half_even_cases y :
  round_half_even y = Qfloor y \/ round_half_even y = Qfloor y + 1.
Proof.
  unfold round_half_even.
  destruct (y - inject_Z (Qfloor y) ?= 1 # 2)%Q; auto.
  destruct (Z.even (Qfloor y)); auto.
Qed.

Lemma round_half_even_neg y : (y < 0)%Q -> round_half_even y <= 0.
Proof.
  intros H. pose proof (Qfloor_le y) as Hf.
  assert (Qfloor y < 0) as Hz.
  { rewrite Zlt_Qlt. change (inject_Z 0) with 0%Q. lra. }
  destruct (round_half_even_cases y) as [-> | ->]; lia.
Qed.

Lemma round_half_even_nonneg y : (0 <= y)%Q -> 0 <= round_half_even y.
Proof.
  intros H. pose proof (Qfloor_resp_le _ _ H) as Hf.
  change (Qfloor 0) with 0 in Hf.
  destruct (round_half_even_cases y) as [-> | ->]; lia.
Qed.

Lemma inject_Z_div10 m :
  (inject_Z (m / 10) + inject_Z (m mod 10) / inject_Z (10 ^ 1)
   == inject_Z m / 10)%Q.
Proof.
  rewrite (Z.div_mod m 10) at 3 by lia.
  rewrite inject_Z_plus, inject_Z_mult.
  change (inject_Z (10 ^ 1)) with 10%Q. change (inject_Z 10) with 10%Q.
  field.
Qed.

(** [float] reads a formatted score back as its number of tenths. *)
Lemma float_format_1f x :
  exists q, float_of_string (format_1f x) = Ok q
            /\ (q == inject_Z (tenths x) / 10)%Q.
Proof.
  unfold format_1f. set (m := Z.abs (tenths x)).
  assert (0 <= m) as Hm by (unfold m; lia).
  assert (0 <= m / 10) as Ha by (apply Z.div_pos; lia).
  assert (0 <= m mod 10 < 10) as Hb by (apply Z.mod_pos_bound; lia).
  pose proof (unsigned_literal_decimal _ _ Ha Hb) as Hu.
  destruct (Qltb_spec x 0) as [Hneg | Hpos].
  - simpl append. unfold float_of_string. simpl.
    simpl append in Hu. rewrite Hu.
    eexists; split; [reflexivity|].
    rewrite inject_Z_div10.
    assert (tenths x <= 0) as Ht by (apply round_half_even_neg; lra).
    unfold m. rewrite Z.abs_neq by exact Ht. rewrite inject_Z_opp. field.
  - simpl append. simpl append in Hu.
    destruct (decimal_head (m / 10)) as (c & s & E & Hc1 & Hc2 & _).
    unfold float_of_string. rewrite E in *. simpl append in *.
    apply Ascii.eqb_neq in Hc1, Hc2. cbv beta iota. rewrite Hc1, Hc2, Hu.
    eexists; split; [reflexivity|].
    rewrite inject_Z_div10.
    assert (0 <= tenths x) as Ht by (apply round_half_even_nonneg; lra).
    unfold m. rewrite Z.abs_eq by exact Ht. reflexivity.
Qed.

(** ** The bisection over the breakpoints *)

Ltac bisect_step :=
  simp bisect_loop; simpl; unfold root_lt_int; simpl;
  change (inject_Z 1) with 1%Q; change (inject_Z 9) with 9%Q;
  change (inject_Z 25) with 25%Q; change (inject_Z 49) with 49%Q.

Lemma bisect_breakpoints q :
  bisect SluggishAdopter.breakpoints (Sqrt q) =
  Ok (if Qltb q 1 then 0 else if Qltb q 9 then 1 else if Qltb q 25 then 2
      else if Qltb q 49 then 3 else 4)%nat.
Proof.
  unfold bisect, SluggishAdopter.breakpoints. simpl List.length.
  pose proof (Qltb_spec q 1) as H1. pose proof (Qltb_spec q 9) as H9.
  pose proof (Qltb_spec q 25) as H25. pose proof (Qltb_spec q 49) as H49.
  destruct (Qltb q 1) eqn:E1, (Qltb q 9) eqn:E9, (Qltb q 25) eqn:E25,
    (Qltb q 49) eqn:E49; inversion H1; inversion H9; inversion H25;
    inversion H49; try lra;
    repeat (bisect_step; rewrite ?E1, ?E9, ?E25, ?E49); reflexivity.
Qed.

Lemma coefficient_buckets r1 r2 r3 q :
  SluggishAdopter.coefficient [1%Q; r1; r2; r3] (Sqrt q) =
  Ok (if Qltb q 1 then r3 else if Qltb q 9 then 1%Q
      else if Qltb q 25 then r1 else if Qltb q 49 then r2 else r3).
Proof.
  unfold SluggishAdopter.coefficient. rewrite bisect_breakpoints.
  destruct (Qltb q 1); [reflexivity|].
  destruct (Qltb q 9); [reflexivity|].
  destruct (Qltb q 25); [reflexivity|].
  destruct (Qltb q 49); reflexivity.
Qed.

(** ** What each class computes *)

Lemma reads_adopter_get_score a r :
  reads (Adopter.get_score a r)
        (fun w => count (objects w r) (Adopter.desired_species a)).
Proof. apply reads_get_number_of_species. Qed.

Lemma reads_get_score_other a r x :
  reads (Adopter.get_score_other a r x) (fun w => count (objects w r) x).
Proof. apply reads_get_number_of_species. Qed.

Lemma reads_flexible_raw a r :
  reads (FlexibleAdopter.raw_score a r)
        (fun w =>
           inject_Z (count (objects w r)
                       (Adopter.desired_species (FlexibleAdopter.base a)))
           + (3 # 10) * inject_Z (sum (map (count (objects w r))
                                         (FlexibleAdopter.considered_species a))))%Q.
Proof.
  intros w. unfold FlexibleAdopter.raw_score, Adopter._get_score.
  rewrite (bind_reads _ _ _ _ (reads_adopter_get_score _ r)).
  rewrite (bind_reads _ _ _ _
             (reads_comprehension _ (fun w x => count (objects w r) x) _
                (reads_get_score_other _ r))).
  reflexivity.
Qed.

Lemma reads_fearful_raw a r :
  reads (FearfulAdopter.raw_score a r)
        (fun w =>
           inject_Z (count (objects w r)
                       (Adopter.desired_species (FearfulAdopter.base a)))
           - (3 # 10) * inject_Z (sum (map (count (objects w r))
                                         (FearfulAdopter.feared_species a))))%Q.
Proof.
  intros w. unfold FearfulAdopter.raw_score, Adopter._get_score.
  rewrite (bind_reads _ _ _ _ (reads_adopter_get_score _ r)).
  rewrite (bind_reads _ _ _ _
             (reads_comprehension _ (fun w x => count (objects w r) x) _
                (reads_get_score_other _ r))).
  reflexivity.
Qed.

Lemma reads_none_present a r :
  reads (AllergicAdopter.none_present a r)
        (fun w => forallb (fun i => count (objects w r) i =? 0)
                    (AllergicAdopter.allergic_species a)).
Proof.
  unfold AllergicAdopter.none_present.
  apply (reads_all _ (fun w i => count (objects w r) i =? 0)).
  intros x w. rewrite (bind_reads _ _ _ _ (reads_get_number_of_species r x)).
  reflexivity.
Qed.

Lemma reads_allergic_get_score a r :
  reads (AllergicAdopter.get_score a r)
        (fun w =>
           if forallb (fun i => count (objects w r) i =? 0)
                (AllergicAdopter.allergic_species a)
           then score_format
                  (inject_Z (count (objects w r)
                               (Adopter.desired_species (AllergicAdopter.base a))))
           else PyInt 0).
Proof.
  intros w. unfold AllergicAdopter.get_score, Adopter._get_score.
  rewrite (bind_reads _ _ _ _ (reads_none_present a r)).
  destruct (forallb _ _); [|reflexivity].
  rewrite (bind_reads _ _ _ _ (reads_adopter_get_score _ r)). reflexivity.
Qed.

Lemma reads_effectiveness a i :
  reads (MedicatedAllergicAdopter.effectiveness a i)
        (fun _ => match i with
                  | PyStr x =>
                      multiplier (MedicatedAllergicAdopter.medicine_effectiveness a) x
                  | _ => 1%Q
                  end).
Proof.
  intros w. unfold MedicatedAllergicAdopter.effectiveness, contains, subscript,
    multiplier, dict_mem.
  destruct i; try reflexivity.
  destruct (dict_get s _); reflexivity.
Qed.

Lemma medicated_coefficient_run a r w :
  MedicatedAllergicAdopter.coefficient a r w
  = (min_ (multipliers a (objects w r)), w).
Proof.
  unfold MedicatedAllergicAdopter.coefficient,
    MedicatedAllergicAdopter.present_or_zero.
  rewrite (bind_reads _ _ _ _
    (reads_comprehension _
       (fun w x => if count (objects w r) x =? 0 then PyInt 0 else PyStr x) _
       (fun x w' => eq_trans
          (bind_reads _ _ _ _ (reads_get_number_of_species r x)) eq_refl))).
  rewrite (bind_reads _ _ _ _
    (reads_comprehension _ _ _ (fun i => reads_effectiveness a i))).
  unfold lift, multipliers. rewrite map_map. do 2 f_equal.
  apply map_ext. intros x. destruct (count (objects w r) x =? 0); reflexivity.
Qed.

Lemma fold_min_spec r x :
  let m := fold_left (fun m y => if Qltb y m then y else m) r x in
  (m = x \/ In m r) /\ (m <= x)%Q /\ (forall y, In y r -> (m <= y)%Q).
Proof.
  revert x. induction r as [|z r IH]; intros x; simpl.
  - split; [auto|]. split; [lra | tauto].
  - specialize (IH (if Qltb z x then z else x)). simpl in IH.
    destruct IH as (Hin & Hle & Hall).
    destruct (Qltb_spec z x) as [Hzx | Hzx].
    + split; [destruct Hin; auto|]. split; [lra|].
      intros y [<- | Hy]; [exact Hle | auto].
    + split; [destruct Hin; auto|]. split; [exact Hle|].
      intros y [<- | Hy]; [lra | auto].
Qed.

Lemma min_spec l :
  l <> [] ->
  exists m, min_ l = Ok m /\ In m l /\ (forall y, In y l -> (m <= y)%Q).
Proof.
  destruct l as [|x r]; [congruence | intros _].
  destruct (fold_min_spec r x) as (Hin & Hle & Hall).
  eexists; split; [reflexivity|]. split.
  - destruct Hin as [-> | Hin]; [left; reflexivity | right; exact Hin].
  - intros y [<- | Hy]; [exact Hle | auto].
Qed.

Lemma multipliers_nonempty a c :
  forallb (fun i => count c i =? 0)
    (AllergicAdopter.allergic_species (MedicatedAllergicAdopter.base a)) = false ->
  multipliers a c <> [].
Proof.
  unfold multipliers.
  destruct (AllergicAdopter.allergic_species _); simpl; congruence.
Qed.

Lemma medicated_get_score_clear a r w :
  forallb (fun i => count (objects w r) i =? 0)
    (AllergicAdopter.allergic_species (MedicatedAllergicAdopter.base a)) = true ->
  MedicatedAllergicAdopter.get_score a r w
  = (Ok (score_format
           (inject_Z (count (objects w r)
                        (Adopter.desired_species
                           (AllergicAdopter.base (MedicatedAllergicAdopter.base a)))))),
     w).
Proof.
  intros H. unfold MedicatedAllergicAdopter.get_score, Adopter._get_score.
  rewrite (bind_reads _ _ _ _ (reads_none_present _ r)), H.
  rewrite (bind_reads _ _ _ _ (reads_adopter_get_score _ r)). reflexivity.
Qed.

Lemma medicated_raw_score_run a r w m :
  min_ (multipliers a (objects w r)) = Ok m ->
  MedicatedAllergicAdopter.raw_score a r w
  = (Ok (m * inject_Z (count (objects w r)
                         (Adopter.desired_species
                            (AllergicAdopter.base (MedicatedAllergicAdopter.base a)))))%Q,
     w).
Proof.
  intros Hm. unfold MedicatedAllergicAdopter.raw_score, Adopter._get_score.
  unfold bind at 1. rewrite medicated_coefficient_run, Hm.
  rewrite (bind_reads _ _ _ _ (reads_adopter_get_score _ r)). reflexivity.
Qed.

Lemma medicated_get_score_held a r w :
  forallb (fun i => count (objects w r) i =? 0)
    (AllergicAdopter.allergic_species (MedicatedAllergicAdopter.base a)) = false ->
  exists m,
    min_ (multipliers a (objects w r)) = Ok m /\
    MedicatedAllergicAdopter.get_score a r w
    = (Ok (score_format
             (m * inject_Z (count (objects w r)
                              (Adopter.desired_species
                                 (AllergicAdopter.base
                                    (MedicatedAllergicAdopter.base a)))))%Q),
       w).
Proof.
  intros H.
  destruct (min_spec _ (multipliers_nonempty a _ H)) as (m & Hm & _).
  exists m. split; [exact Hm|].
  unfold MedicatedAllergicAdopter.get_score.
  rewrite (bind_reads _ _ _ _ (reads_none_present _ r)), H.
  unfold bind. rewrite (medicated_raw_score_run a r w m Hm). reflexivity.
Qed.

Lemma squares_nonneg (a b : Q) : Qltb (a ^ 2 + b ^ 2) 0 = false.
Proof.
  destruct (Qltb_spec (a ^ 2 + b ^ 2) 0) as [H|]; [|reflexivity].
  exfalso. simpl in H. nra.
Qed.

Lemma sluggish_distance_run a r w :
  SluggishAdopter.distance a r w = (Ok (Sqrt (distance2 a (objects w r))), w).
Proof.
  unfold SluggishAdopter.distance.
  rewrite (bind_reads _ _ _ _ (reads_get_location r)).
  rewrite (bind_reads _ _ _ _ (reads_get_location r)).
  unfold lift, math_sqrt. rewrite squares_nonneg. reflexivity.
Qed.

Lemma sluggish_mapping_run w :
  SluggishAdopter.mapping w
  = (Ok [1%Q; draw1 (rand w); draw2 (rand w); draw3 (rand w)], after_draws w).
Proof. reflexivity. Qed.

Lemma sluggish_raw_score_run a r w :
  SluggishAdopter.raw_score a r w
  = (Ok (inject_Z (count (objects w r)
                     (Adopter.desired_species (SluggishAdopter.base a)))
         * selected (distance2 a (objects w r))
             (draw1 (rand w)) (draw2 (rand w)) (draw3 (rand w)))%Q,
     after_draws w).
Proof.
  unfold SluggishAdopter.raw_score, Adopter._get_score.
  rewrite (bind_reads _ _ _ _ (reads_adopter_get_score _ r)).
  unfold bind at 1. rewrite sluggish_distance_run.
  unfold bind at 1. rewrite sluggish_mapping_run.
  unfold bind, lift. rewrite coefficient_buckets. reflexivity.
Qed.

(** ** The order on sort keys *)

Lemma string_ltb_lt a b : String.ltb a b = true <-> String_as_OT.lt a b.
Proof.
  rewrite <- String_as_OT.cmp_lt. unfold String.ltb, String_as_OT.cmp.
  destruct (String.compare a b); split; congruence.
Qed.

Lemma string_ltb_irrefl a : String.ltb a a = false.
Proof.
  unfold String.ltb.
  assert (String.compare a a = Eq) as -> by (apply String_as_OT.cmp_eq; reflexivity).
  reflexivity.
Qed.

Lemma string_ltb_trans a b c :
  String.ltb a b = true -> String.ltb b c = true -> String.ltb a c = true.
Proof.
  rewrite !string_ltb_lt. apply String_as_OT.lt_trans.
Qed.

Lemma string_ltb_cases a b :
  String.ltb a b = true \/ a = b \/ String.ltb b a = true.
Proof.
  unfold String.ltb. rewrite (String.compare_antisym b a).
  destruct (String.compare a b) eqn:E; simpl; auto.
  right; left. apply String.compare_eq_iff. exact E.
Qed.

Lemma string_ge_trans a b c :
  String.ltb a b = false -> String.ltb b c = false -> String.ltb a c = false.
Proof.
  intros Hab Hbc. destruct (String.ltb a c) eqn:Hac; [|reflexivity].
  destruct (string_ltb_cases b a) as [H | [-> | H]]; try congruence.
  rewrite (string_ltb_trans _ _ _ H Hac) in Hbc. discriminate.
Qed.

Lemma key_lt_irrefl a : key_lt a a = false.
Proof.
  unfold key_lt. destruct (Qcompare_spec (fst a) (fst a)); try lra.
  apply string_ltb_irrefl.
Qed.

Lemma key_lt_asym a b : key_lt a b = true -> key_lt b a = false.
Proof.
  unfold key_lt.
  destruct (Qcompare_spec (fst a) (fst b)), (Qcompare_spec (fst b) (fst a));
    try lra; try congruence.
  intros Hab. destruct (String.ltb (snd b) (snd a)) eqn:E; [|reflexivity].
  rewrite <- (string_ltb_trans _ _ _ Hab E). apply string_ltb_irrefl.
Qed.

Lemma key_ge_trans a b c :
  key_lt a b = false -> key_lt b c = false -> key_lt a c = false.
Proof.
  unfold key_lt.
  destruct (Qcompare_spec (fst a) (fst b)), (Qcompare_spec (fst b) (fst c)),
    (Qcompare_spec (fst a) (fst c)); try lra; try congruence.
  apply string_ge_trans.
Qed.

(** Two keys neither of which is below the other agree on the name. *)
Lemma key_lt_total a b :
  key_lt a b = false -> key_lt b a = false -> snd a = snd b.
Proof.
  unfold key_lt.
  destruct (Qcompare_spec (fst a) (fst b)), (Qcompare_spec (fst b) (fst a));
    try lra; try congruence.
  intros Hab Hba.
  destruct (string_ltb_cases (snd a) (snd b)) as [Hs | [Hs | Hs]]; congruence.
Qed.

Lemma key_lt_ranked (fx fy : Q) (nx ny : string) :
  key_lt (fy, ny) (fx, nx) = true ->
  (fy < fx \/ (fy == fx /\ String.ltb ny nx = true))%Q.
Proof.
  unfold key_lt. simpl.
  destruct (Qcompare_spec fy fx); auto; discriminate.
Qed.

(** ** Sorting *)

Section Sorting.
Context {A : Type}.

Lemma insert_desc_perm (x : key * A) l : Permutation (x :: l) (insert_desc x l).
Proof.
  induction l as [|y r IH]; simpl.
  - reflexivity.
  - destruct (key_lt (fst x) (fst y)).
    + rewrite perm_swap. apply perm_skip. exact IH.
    + reflexivity.
Qed.

Lemma sort_desc_perm (l : list (key * A)) : Permutation l (sort_desc l).
Proof.
  induction l as [|x r IH]; simpl.
  - reflexivity.
  - rewrite <- insert_desc_perm. apply perm_skip. exact IH.
Qed.

Lemma insert_desc_sorted (x : key * A) l :
  StronglySorted not_below l -> StronglySorted not_below (insert_desc x l).
Proof.
  induction 1 as [|y r Hs IH Hall]; simpl.
  - repeat constructor.
  - destruct (key_lt (fst x) (fst y)) eqn:E.
    + constructor; [exact IH|].
      apply (Permutation_Forall (insert_desc_perm x r)).
      constructor; [apply key_lt_asym; exact E | exact Hall].
    + constructor; [constructor; assumption|].
      constructor; [exact E|].
      eapply Forall_impl; [|exact Hall].
      intros z Hz. exact (key_ge_trans _ _ _ E Hz).
Qed.

Lemma sort_desc_sorted (l : list (key * A)) :
  StronglySorted not_below (sort_desc l).
Proof.
  induction l as [|x r IH]; simpl.
  - constructor.
  - apply insert_desc_sorted. exact IH.
Qed.

Lemma decorate_spec (f : A -> outcome key) l d :
  decorate f l = Ok d ->
  map snd d = l /\ Forall (fun p => f (snd p) = Ok (fst p)) d.
Proof.
  revert d. induction l as [|x r IH]; simpl; intros d H.
  - injection H as <-. split; constructor.
  - destruct (f x) as [k|] eqn:Ek; [|discriminate].
    destruct (decorate f r) as [d'|]; [|discriminate].
    injection H as <-. destruct (IH d' eq_refl) as [Hm Hf].
    split; simpl; [f_equal; exact Hm | constructor; assumption].
Qed.

Lemma decorate_total (f : A -> outcome key) l :
  Forall (fun x => exists k, f x = Ok k) l -> exists d, decorate f l = Ok d.
Proof.
  induction 1 as [|x r [k Hk] _ [d Hd]]; simpl.
  - eexists; reflexivity.
  - rewrite Hk, Hd. eexists; reflexivity.
Qed.
End Sorting.




Lemma StronglySorted_map_distinct {A B} (R : A -> A -> Prop)
    (R' : B -> B -> Prop) (g : A -> B) (nm : A -> string) l :
  (forall x y, R x y -> nm x <> nm y -> R' (g x) (g y)) ->
  StronglySorted R l -> NoDup (map nm l) -> StronglySorted R' (map g l).
Proof.
  intros HR. induction 1 as [|x r _ IH Hall]; simpl; intros Hnd.
  - constructor.
  - inversion Hnd as [|? ? Hnotin Hnd']; subst.
    constructor; [apply IH; exact Hnd'|].
    rewrite Forall_forall in *. intros z Hz.
    apply in_map_iff in Hz. destruct Hz as (y & <- & Hy).
    apply HR; [apply Hall; exact Hy|].
    intros E. apply Hnotin. rewrite E. apply in_map. exact Hy.
Qed.

(** ** Scores as the ranking functions read them *)

Lemma round_half_even_compat x y :
  (x == y)%Q -> round_half_even x = round_half_even y.
Proof.
  intros E. unfold round_half_even. cbv zeta.
  rewrite (Qfloor_comp _ _ E).
  rewrite (Qcompare_comp (x - inject_Z (Qfloor y))%Q (y - inject_Z (Qfloor y))%Q
             ltac:(rewrite E; reflexivity) (1 # 2)%Q (1 # 2)%Q ltac:(reflexivity)).
  reflexivity.
Qed.

Lemma round_half_even_int n : round_half_even (inject_Z n) = n.
Proof.
  unfold round_half_even. cbv zeta. rewrite Qfloor_Z.
  destruct (Qcompare_spec (inject_Z n - inject_Z n) (1 # 2)); [lra | reflexivity | lra].
Qed.

Lemma tenths_compat x y : (x == y)%Q -> tenths x = tenths y.
Proof.
  intros E. apply round_half_even_compat. rewrite E. reflexivity.
Qed.

Lemma tenths_int n : tenths (inject_Z n) = 10 * n.
Proof.
  unfold tenths. rewrite <- (round_half_even_int (10 * n)).
  apply round_half_even_compat.
  rewrite inject_Z_mult. change (inject_Z 10) with 10%Q. ring.
Qed.

(** Equal numbers are printed alike. *)
Lemma format_1f_compat x y : (x == y)%Q -> format_1f x = format_1f y.
Proof.
  intros E. unfold format_1f. rewrite (tenths_compat _ _ E).
  replace (Qltb y 0) with (Qltb x 0); [reflexivity|].
  unfold Qltb. f_equal. apply Qleb_comp; [reflexivity | exact E].
Qed.

Lemma float_shaped v :
  score_shaped v -> exists k, float v = Ok k.
Proof.
  intros [[n ->] | [x ->]]; simpl.
  - eexists; reflexivity.
  - destruct (float_format_1f x) as (q & Hq & _). exists q. exact Hq.
Qed.

Lemma sort_key_shaped (x : string * pyval) :
  score_shaped (snd x) -> exists k, sort_key x = Ok k.
Proof.
  intros H. destruct (float_shaped _ H) as [k Hk].
  unfold sort_key. rewrite Hk. eexists; reflexivity.
Qed.

Lemma sort_key_ranked (p q : key * (string * pyval)) :
  sort_key (snd p) = Ok (fst p) -> sort_key (snd q) = Ok (fst q) ->
  not_below p q -> fst (snd p) <> fst (snd q) ->
  ranked_before (snd p) (snd q).
Proof.
  unfold sort_key, not_below, ranked_before.
  destruct p as [kp [np vp]], q as [kq [nq vq]]; simpl.
  destruct (float vp) as [fp|]; [|discriminate].
  destruct (float vq) as [fq|]; [|discriminate].
  intros [= <-] [= <-] Hge Hne.
  exists fp, fq. repeat split.
  apply key_lt_ranked.
  destruct (key_lt (fq, nq) (fp, np)) eqn:E; [reflexivity|].
  exfalso. apply Hne. exact (key_lt_total _ _ Hge E).
Qed.

(** [sorted] on the items of a dictionary of scores: it returns, and its
    result holds the same items in ranking order. *)
Lemma sorted_reverse_spec (d : dict pyval) :
  NoDup (map fst d) -> Forall (fun x => score_shaped (snd x)) d ->
  exists l, sorted_reverse sort_key (items d) = Ok l
            /\ Permutation d l /\ StronglySorted ranked_before l.
Proof.
  intros Hnd Hsh. unfold sorted_reverse, items.
  destruct (decorate_total sort_key d) as [dec Hdec].
  { eapply Forall_impl; [|exact Hsh]. intros. apply sort_key_shaped; assumption. }
  rewrite Hdec. destruct (decorate_spec _ _ _ Hdec) as [Hmap Hkeys].
  pose proof (sort_desc_perm dec) as Hperm.
  eexists; split; [reflexivity|]. split.
  - rewrite <- Hmap. apply Permutation_map. exact Hperm.
  - assert (Forall (fun p => sort_key (snd p) = Ok (fst p)) (sort_desc dec)) as Hk
      by (apply (Permutation_Forall Hperm); exact Hkeys).
    assert (NoDup (map (fun p : key * (string * pyval) => fst (snd p))
                     (sort_desc dec))) as Hnd'.
    { rewrite <- (map_map snd fst).
      eapply Permutation_NoDup; [|exact Hnd].
      apply Permutation_map. rewrite <- Hmap.
      apply Permutation_map. exact Hperm. }
    pose proof (sort_desc_sorted dec) as Hs.
    assert (StronglySorted
              (fun p q => not_below p q /\ sort_key (snd p) = Ok (fst p)
                          /\ sort_key (snd q) = Ok (fst q)) (sort_desc dec)) as Hs'.
    { clear Hnd' Hperm. induction Hs as [|x r Hr IH Hall]; [constructor|].
      inversion Hk as [|? ? Hx Hk']; subst.
      constructor; [apply IH; exact Hk'|].
      rewrite Forall_forall in *. intros y Hy. auto. }
    eapply (StronglySorted_map_distinct _ _ snd (fun p => fst (snd p)));
      [|exact Hs'|exact Hnd'].
    intros x y (Hge & Hx & Hy) Hne. apply sort_key_ranked; assumption.
Qed.

(** ** Every class returns a score and leaves the centers alone *)

Lemma get_score_raw a r w :
  exists x v w',
    raw_score a r w = (Ok x, w') /\ get_score a r w = (Ok v, w')
    /\ objects w' = objects w
    /\ (v = PyStr (format_1f x) \/ exists n, v = PyInt n /\ x = inject_Z n).
Proof.
  destruct a as [a|a|a|a|a|a]; simpl.
  - do 3 eexists.
    rewrite !(bind_reads _ _ _ _ (reads_adopter_get_score a r)).
    repeat split. right. eexists; split; reflexivity.
  - do 3 eexists. unfold FlexibleAdopter.get_score.
    rewrite (bind_reads _ _ _ _ (reads_flexible_raw a r)).
    rewrite (reads_flexible_raw a r w). repeat split. left. reflexivity.
  - do 3 eexists. unfold FearfulAdopter.get_score.
    rewrite (bind_reads _ _ _ _ (reads_fearful_raw a r)).
    rewrite (reads_fearful_raw a r w). repeat split. left. reflexivity.
  - rewrite (reads_allergic_get_score a r w).
    rewrite (bind_reads _ _ _ _ (reads_none_present a r)).
    destruct (forallb _ _).
    + unfold Adopter._get_score.
      rewrite (bind_reads _ _ _ _ (reads_adopter_get_score _ r)).
      do 3 eexists. repeat split. left. reflexivity.
    + do 3 eexists. repeat split. right. exists 0. split; reflexivity.
  - rewrite (bind_reads _ _ _ _ (reads_none_present _ r)).
    destruct (forallb _ _) eqn:E.
    + rewrite (medicated_get_score_clear a r w E). unfold Adopter._get_score.
      rewrite (bind_reads _ _ _ _ (reads_adopter_get_score _ r)).
      do 3 eexists. repeat split. left. reflexivity.
    + destruct (medicated_get_score_held a r w E) as (m & Hm & ->).
      rewrite (medicated_raw_score_run a r w m Hm).
      do 3 eexists. repeat split. left. reflexivity.
  - unfold SluggishAdopter.get_score, bind.
    rewrite sluggish_raw_score_run.
    do 3 eexists. repeat split. left. reflexivity.
Qed.

Lemma get_score_returns a r w :
  exists v w', get_score a r w = (Ok v, w') /\ objects w' = objects w
               /\ score_shaped v.
Proof.
  destruct (get_score_raw a r w) as (x & v & w' & _ & Hs & Hw & Hv).
  exists v, w'. repeat split; try assumption.
  destruct Hv as [-> | (n & -> & _)]; [right | left]; eexists; reflexivity.
Qed.

(** ** Dictionaries *)

Lemma dict_set_in {V} k (v : V) d k' :
  In k' (map fst (dict_set k v d)) -> k' = k \/ In k' (map fst d).
Proof.
  induction d as [|[k0 v0] d IH]; simpl.
  - intros [<- | []]. auto.
  - destruct (String.eqb_spec k k0) as [-> | Hne]; simpl.
    + intros [<- | H]; auto.
    + intros [<- | H]; auto. destruct (IH H); auto.
Qed.

Lemma dict_set_nodup {V} k (v : V) d :
  NoDup (map fst d) -> NoDup (map fst (dict_set k v d)).
Proof.
  induction d as [|[k0 v0] d IH]; simpl; intros Hnd.
  - constructor; [intros [] | constructor].
  - inversion Hnd as [|? ? Hnotin Hnd']; subst.
    destruct (String.eqb_spec k k0) as [-> | Hne]; simpl.
    + constructor; assumption.
    + constructor; [|apply IH; exact Hnd'].
      intros H. destruct (dict_set_in _ _ _ _ H); congruence.
Qed.

Lemma dict_set_forall {V} (P : string * V -> Prop) k v d :
  P (k, v) -> Forall P d -> Forall P (dict_set k v d).
Proof.
  intros Hp. induction 1 as [|[k0 v0] d Hx Hd IH]; simpl.
  - repeat constructor. exact Hp.
  - destruct (String.eqb k k0); constructor; assumption.
Qed.

Lemma dict_set_length {V} k (v : V) d :
  (List.length (dict_set k v d) <= S (List.length d))%nat.
Proof.
  induction d as [|[k0 v0] d IH]; simpl; [lia|].
  destruct (String.eqb k k0); simpl; lia.
Qed.

(** ** The dictionaries of scores the ranking functions build *)

Lemma scores_ok_set k v d :
  score_shaped v -> scores_ok d -> scores_ok (dict_set k v d).
Proof.
  intros Hv [Hnd Hsh]. split.
  - apply dict_set_nodup. exact Hnd.
  - apply dict_set_forall; assumption.
Qed.

Lemma adopter_scores_spec c l :
  forall d w, scores_ok d ->
  exists d' w', adopter_scores c l d w = (Ok d', w')
                /\ objects w' = objects w /\ scores_ok d'
                /\ (List.length d' <= List.length d + List.length l)%nat.
Proof.
  induction l as [|a l IH]; intros d w Hd; simpl.
  - exists d, w. repeat split; try apply Hd. lia.
  - destruct (get_score_returns a c w) as (v & w1 & Hs & Hw1 & Hv).
    unfold bind at 1. rewrite Hs.
    destruct (IH (dict_set (adopter_get_name a) v d) w1
                (scores_ok_set _ _ _ Hv Hd)) as (d' & w' & Hr & Hw' & Hok & Hlen).
    exists d', w'. repeat split; try apply Hok; try assumption.
    + congruence.
    + pose proof (dict_set_length (adopter_get_name a) v d). lia.
Qed.

Lemma center_scores_spec a l :
  forall d w, scores_ok d ->
  exists d' w', center_scores a l d w = (Ok d', w')
                /\ objects w' = objects w /\ scores_ok d'
                /\ (List.length d' <= List.length d + List.length l)%nat.
Proof.
  induction l as [|c l IH]; intros d w Hd; simpl.
  - exists d, w. repeat split; try apply Hd. lia.
  - destruct (get_score_returns a c w) as (v & w1 & Hs & Hw1 & Hv).
    unfold bind at 1. rewrite Hs.
    rewrite (bind_reads _ _ _ _ (reads_get_name c)).
    destruct (IH (dict_set (name (objects w1 c)) v d) w1
                (scores_ok_set _ _ _ Hv Hd)) as (d' & w' & Hr & Hw' & Hok & Hlen).
    exists d', w'. repeat split; try apply Hok; try assumption.
    + congruence.
    + pose proof (dict_set_length (name (objects w1 c)) v d). lia.
Qed.

Lemma scores_ok_empty : scores_ok [].
Proof. split; constructor. Qed.

(** ** Frame: scoring never writes to the store *)

Lemma get_score_frames a c : frames (get_score a c).
Proof.
  intros w. destruct (get_score_returns a c w) as (v & w' & Hs & Hw & _).
  rewrite Hs. exact Hw.
Qed.

(** C9: for every adopter class and every center, [get_score] leaves the
    store of centers as it was: the name, the inventory and the location of
    the scored center, and of every other center, are the same after the
    call as before. *)
Theorem get_score_leaves_centers_unchanged (a : adopter) (c : ref) (w : world) :
  forall r,
    name (objects (snd (get_score a c w)) r) = name (objects w r)
    /\ species_types (objects (snd (get_score a c w)) r)
       = species_types (objects w r)
    /\ location (objects (snd (get_score a c w)) r) = location (objects w r).
Proof.
  intros r. rewrite (get_score_frames a c w). repeat split.
Qed.

(** ** adopt_pet *)

(** C7: [adopt_pet] calls [keys] with an argument, so for every center and
    species it raises [TypeError] before it reads or writes any count: the
    inventory is never decremented, also when the species is in stock. *)
Theorem adopt_pet_raises (self : ref) (species : string) (w : world) :
  adopt_pet self species w = (Raise TypeError, w).
Proof. reflexivity. Qed.

Example adopt_pet_in_stock :
  let w := mkWorld (store [ac1]) (fun _ => 0%Q) in
  count ac1 "Cat" = 12
  /\ fst (adopt_pet 0%nat "Cat" w) = Raise TypeError
  /\ count (objects (snd (adopt_pet 0%nat "Cat" w)) 0%nat) "Cat" = 12.
Proof. repeat split. Qed.

(** ** Rounding to tenths *)

Lemma round_half_even_near y :
  (y - (1 # 2) <= inject_Z (round_half_even y) <= y + (1 # 2))%Q.
Proof.
  pose proof (Qfloor_le y) as Hlo. pose proof (Qlt_floor y) as Hhi.
  rewrite inject_Z_plus in Hhi. change (inject_Z 1) with 1%Q in Hhi.
  unfold round_half_even. cbv zeta.
  destruct (Qcompare_spec (y - inject_Z (Qfloor y)) (1 # 2)) as [E | E | E].
  - destruct (Z.even (Qfloor y)).
    + lra.
    + rewrite inject_Z_plus. change (inject_Z 1) with 1%Q. lra.
  - lra.
  - rewrite inject_Z_plus. change (inject_Z 1) with 1%Q. lra.
Qed.

Lemma round_half_even_mono x y :
  (x <= y)%Q -> round_half_even x <= round_half_even y.
Proof.
  intros H. pose proof (Qfloor_resp_le _ _ H) as Hf.
  destruct (Z.eq_dec (Qfloor x) (Qfloor y)) as [E | Hne].
  - unfold round_half_even. cbv zeta. rewrite E.
    destruct (Qcompare_spec (x - inject_Z (Qfloor y)) (1 # 2)),
      (Qcompare_spec (y - inject_Z (Qfloor y)) (1 # 2));
      try lra; try lia; destruct (Z.even (Qfloor y)); lia.
  - destruct (round_half_even_cases x) as [-> | ->],
      (round_half_even_cases y) as [-> | ->]; lia.
Qed.

Lemma tenths_mono x y : (x <= y)%Q -> tenths x <= tenths y.
Proof. intros H. apply round_half_even_mono. lra. Qed.

Lemma tenths_near x :
  (x - (1 # 20) <= inject_Z (tenths x) / 10 <= x + (1 # 20))%Q.
Proof.
  pose proof (round_half_even_near (x * 10)) as H. unfold tenths.
  set (t := inject_Z (round_half_even (x * 10))) in *.
  assert (t / 10 == t * (1 # 10))%Q as -> by field. lra.
Qed.

Lemma float_score_format x :
  exists k, float (score_format x) = Ok k
            /\ (k == inject_Z (tenths x) / 10)%Q.
Proof. exact (float_format_1f x). Qed.

Lemma Qdiv10 (t : Q) : (t / 10 == t * (1 # 10))%Q.
Proof. field. Qed.

(** A rendering never crosses a whole number. *)
Lemma float_score_format_le x n :
  (x <= inject_Z n)%Q ->
  forall k, float (score_format x) = Ok k -> (k <= inject_Z n)%Q.
Proof.
  intros H k Hk. destruct (float_score_format x) as (k' & Hk' & E).
  rewrite Hk in Hk'. injection Hk' as <-. rewrite E, Qdiv10.
  pose proof (tenths_mono _ _ H) as Ht. rewrite tenths_int in Ht.
  rewrite Zle_Qle, inject_Z_mult in Ht. change (inject_Z 10) with 10%Q in Ht.
  lra.
Qed.

Lemma float_score_format_ge x n :
  (inject_Z n <= x)%Q ->
  forall k, float (score_format x) = Ok k -> (inject_Z n <= k)%Q.
Proof.
  intros H k Hk. destruct (float_score_format x) as (k' & Hk' & E).
  rewrite Hk in Hk'. injection Hk' as <-. rewrite E, Qdiv10.
  pose proof (tenths_mono _ _ H) as Ht. rewrite tenths_int in Ht.
  rewrite Zle_Qle, inject_Z_mult in Ht. change (inject_Z 10) with 10%Q in Ht.
  lra.
Qed.


(** Closed statements that numbers are in range hold by computation. *)
Ltac in_range_holds :=
  repeat first
    [ apply Forall_nil
    | apply Forall_cons
    | match goal with
      | |- whole_place _ => eexists; eexists; split; [reflexivity|]
      end
    | split ];
  first [ reflexivity | discriminate ].

(** The text of a whole number that is not negative. *)
Lemma format_1f_whole n :
  0 <= n -> format_1f (inject_Z n) = (decimal n ++ ".0")%string.
Proof.
  intros Hn. unfold format_1f. cbv zeta. rewrite tenths_int.
  assert (Qltb (inject_Z n) 0 = false) as ->.
  { destruct (Qltb_spec (inject_Z n) 0) as [H|]; [|reflexivity].
    exfalso. rewrite Zle_Qle in Hn. change (inject_Z 0) with 0%Q in Hn. lra. }
  rewrite Z.abs_eq by lia.
  rewrite (Z.mul_comm 10 n), Z.div_mul, Z.mod_mul by lia.
  reflexivity.
Qed.

(** ** Allergic adopters *)

Lemma count_nonneg c s : nonneg_inventory c -> 0 <= count c s.
Proof.
  unfold nonneg_inventory, count.
  induction 1 as [|[k n] d Hn _ IH]; simpl; [lia|].
  destruct (String.eqb s k); [exact Hn | exact IH].
Qed.

Lemma none_held_true c l :
  forallb (fun i => count c i =? 0) l = true ->
  ~ Exists (fun s => 0 < count c s) l.
Proof.
  rewrite forallb_forall, Exists_exists. intros H (s & Hs & Hpos).
  specialize (H s Hs). lia.
Qed.

Lemma none_held_false c l :
  nonneg_inventory c ->
  forallb (fun i => count c i =? 0) l = false ->
  Exists (fun s => 0 < count c s) l.
Proof.
  intros Hinv. induction l as [|s l IH]; simpl; [discriminate|].
  destruct (count c s =? 0) eqn:E; simpl.
  - intros H. right. apply IH. exact H.
  - intros _. left. pose proof (count_nonneg c s Hinv). lia.
Qed.

Lemma float_format_int n :
  exists k, float (score_format (inject_Z n)) = Ok k /\ (k == inject_Z n)%Q.
Proof.
  destruct (float_format_1f (inject_Z n)) as (k & Hk & E).
  exists k. split; [exact Hk|].
  rewrite E, tenths_int, inject_Z_mult. change (inject_Z 10) with 10%Q. field.
Qed.

(** C8 as stated fails: at the script's [ac2], which holds 12 cats and no
    horse, an adopter of cats allergic to horses gets the string 12.0, not
    the count 12. *)
Lemma allergic_score_is_not_the_count :
  nonneg_inventory (objects demo_world 1%nat)
  /\ ~ Exists (fun s => 0 < count (objects demo_world 1%nat) s)
         (AllergicAdopter.allergic_species
            (AllergicAdopter.init "Seven" "Cat" (One "Horse")))
  /\ count (objects demo_world 1%nat) "Cat" = 12
  /\ fst (get_score (IsAllergic (AllergicAdopter.init "Seven" "Cat" (One "Horse")))
            1%nat demo_world) = Ok (PyStr "12.0")
  /\ fst (get_score (IsAllergic (AllergicAdopter.init "Seven" "Cat" (One "Horse")))
            1%nat demo_world) <> Ok (PyInt 12).
Proof.
  split; [repeat constructor; simpl; discriminate|].
  split.
  { intros H. apply Exists_exists in H. destruct H as (s & [<- | []] & Hs).
    vm_compute in Hs. discriminate. }
  split; [reflexivity|]. split; [reflexivity|]. vm_compute. discriminate.
Qed.

(** C8, as the code has it: for every allergic adopter and every center
    with no negative count and fewer than 2^31 animals of the desired
    species, [get_score] is the int 0 when some allergic species has a
    positive count at the center, and otherwise the string that ['%.1f']
    prints for the count of the desired species, the digits of the count
    followed by a point and a zero, which [float] reads as the count. *)
Theorem allergic_get_score_spec (a : AllergicAdopter.t) (c : ref) (w : world) :
  nonneg_inventory (objects w c) ->
  count (objects w c) (Adopter.desired_species (AllergicAdopter.base a)) < 2 ^ 31 ->
  exists v,
    get_score (IsAllergic a) c w = (Ok v, w)
    /\ (Exists (fun s => 0 < count (objects w c) s)
          (AllergicAdopter.allergic_species a) -> v = PyInt 0)
    /\ (~ Exists (fun s => 0 < count (objects w c) s)
            (AllergicAdopter.allergic_species a) ->
        v = PyStr (decimal (count (objects w c)
                              (Adopter.desired_species (AllergicAdopter.base a)))
                   ++ ".0")
        /\ exists k, float v = Ok k
                     /\ (k == inject_Z (count (objects w c)
                                          (Adopter.desired_species
                                             (AllergicAdopter.base a))))%Q).
Proof.
  intros Hinv _. simpl. rewrite (reads_allergic_get_score a c w).
  destruct (forallb _ _) eqn:E; eexists; (split; [reflexivity|]); split.
  - intros H. destruct (none_held_true _ _ E H).
  - intros _. split; [|apply float_format_int].
    unfold score_format. rewrite format_1f_whole; [reflexivity|].
    apply count_nonneg. exact Hinv.
  - reflexivity.
  - intros H. destruct H. exact (none_held_false _ _ Hinv E).
Qed.

(** An adopter of cats allergic to horses, at the script's [ac2]. *)
Lemma allergic_get_score_spec_witness :
  let a := AllergicAdopter.init "Seven" "Cat" (One "Horse") in
  nonneg_inventory (objects demo_world 1%nat)
  /\ count (objects demo_world 1%nat)
       (Adopter.desired_species (AllergicAdopter.base a)) < 2 ^ 31
  /\ exists v,
       get_score (IsAllergic a) 1%nat demo_world = (Ok v, demo_world)
       /\ (Exists (fun s => 0 < count (objects demo_world 1%nat) s)
             (AllergicAdopter.allergic_species a) -> v = PyInt 0)
       /\ (~ Exists (fun s => 0 < count (objects demo_world 1%nat) s)
               (AllergicAdopter.allergic_species a) ->
           v = PyStr (decimal (count (objects demo_world 1%nat)
                                 (Adopter.desired_species (AllergicAdopter.base a)))
                      ++ ".0")
           /\ exists k, float v = Ok k
                        /\ (k == inject_Z (count (objects demo_world 1%nat)
                                             (Adopter.desired_species
                                                (AllergicAdopter.base a))))%Q).
Proof.
  intros a.
  assert (nonneg_inventory (objects demo_world 1%nat)) as Hinv
    by (repeat constructor; simpl; lia).
  assert (count (objects demo_world 1%nat)
            (Adopter.desired_species (AllergicAdopter.base a)) < 2 ^ 31) as Hlt
    by reflexivity.
  split; [exact Hinv|]. split; [exact Hlt|].
  exact (allergic_get_score_spec a 1%nat demo_world Hinv Hlt).
Defined.

Example allergic_examples :
  fst (get_score adopter6 1%nat demo_world) = Ok (PyInt 0)
  /\ fst (get_score (IsAllergic (AllergicAdopter.init "Seven" "Cat" (One "Horse")))
            1%nat demo_world) = Ok (PyStr "12.0").
Proof. split; reflexivity. Qed.

(** ** Medicated allergic adopters *)

Lemma multiplier_le_1 eff s :
  Forall (fun e => 0 <= snd e <= 1)%Q eff -> (multiplier eff s <= 1)%Q.
Proof.
  unfold multiplier.
  induction 1 as [|[k q] d Hq _ IH]; simpl; [lra|].
  destruct (String.eqb s k); [apply Hq | exact IH].
Qed.


Lemma medicated_get_score_min a r w m :
  forallb (fun i => count (objects w r) i =? 0)
    (AllergicAdopter.allergic_species (MedicatedAllergicAdopter.base a)) = false ->
  min_ (multipliers a (objects w r)) = Ok m ->
  get_score (IsMedicated a) r w
  = (Ok (PyStr (format_1f
                  (m * inject_Z (count (objects w r)
                                   (Adopter.desired_species
                                      (AllergicAdopter.base
                                         (MedicatedAllergicAdopter.base a)))))%Q)),
     w).
Proof.
  intros E Hm. destruct (medicated_get_score_held a r w E) as (m' & Hm' & Hs).
  assert (m' = m) as -> by congruence.
  simpl. rewrite Hs. reflexivity.
Qed.

Lemma multiplier_ge_0 eff s :
  Forall (fun e => 0 <= snd e <= 1)%Q eff -> (0 <= multiplier eff s)%Q.
Proof.
  unfold multiplier.
  induction 1 as [|[k q] d Hq _ IH]; simpl; [lra|].
  destruct (String.eqb s k); [apply Hq | exact IH].
Qed.

Lemma multipliers_unit a c m :
  Forall (fun e => 0 <= snd e <= 1)%Q
    (MedicatedAllergicAdopter.medicine_effectiveness a) ->
  In m (multipliers a c) -> (0 <= m <= 1)%Q.
Proof.
  intros Heff Hin. unfold multipliers in Hin. apply in_map_iff in Hin.
  destruct Hin as (s & <- & _).
  destruct (count c s =? 0); [lra|].
  split; [apply multiplier_ge_0 | apply multiplier_le_1]; exact Heff.
Qed.

Lemma float_near x :
  exists k, float (PyStr (format_1f x)) = Ok k
            /\ (x - (1 # 10) < k < x + (1 # 10))%Q.
Proof.
  destruct (float_format_1f x) as (k & Hk & E). exists k.
  split; [exact Hk|]. pose proof (tenths_near x). rewrite E. lra.
Qed.



Example medicated_example_clear : clear_of_ties (12 * (2 # 10)).
Proof. left. vm_compute. discriminate. Qed.


(** ** The type of a score *)





(** ** What every class returns, and the state it leaves *)

(** The coefficient by distance, as the code selects it. *)
Lemma sluggish_get_score_run a c w :
  get_score (IsSluggish a) c w
  = (Ok (PyStr (format_1f
                  (inject_Z (count (objects w c)
                               (Adopter.desired_species (SluggishAdopter.base a)))
                   * selected (distance2 a (objects w c))
                       (draw1 (rand w)) (draw2 (rand w)) (draw3 (rand w)))%Q)),
     after_draws w).
Proof.
  simpl. unfold SluggishAdopter.get_score, bind.
  rewrite sluggish_raw_score_run. reflexivity.
Qed.

Lemma get_score_run (a : adopter) (c : ref) (w : world) :
  exists v,
    get_score a c w = (Ok v, if is_sluggish a then after_draws w else w)
    /\ score_shaped v.
Proof.
  destruct a as [a|a|a|a|a|a]; simpl is_sluggish; cbv iota.
  - eexists. simpl.
    rewrite (bind_reads _ _ _ _ (reads_adopter_get_score a c)).
    split; [reflexivity|]. left. eexists; reflexivity.
  - eexists. simpl. unfold FlexibleAdopter.get_score.
    rewrite (bind_reads _ _ _ _ (reads_flexible_raw a c)).
    split; [reflexivity|]. right. eexists; reflexivity.
  - eexists. simpl. unfold FearfulAdopter.get_score.
    rewrite (bind_reads _ _ _ _ (reads_fearful_raw a c)).
    split; [reflexivity|]. right. eexists; reflexivity.
  - eexists. simpl. rewrite (reads_allergic_get_score a c w).
    split; [reflexivity|].
    destruct (forallb _ _); [right | left]; eexists; reflexivity.
  - destruct (forallb (fun i => count (objects w c) i =? 0)
                (AllergicAdopter.allergic_species (MedicatedAllergicAdopter.base a)))
      eqn:E.
    + eexists. simpl. rewrite (medicated_get_score_clear a c w E).
      split; [reflexivity|]. right. eexists; reflexivity.
    + destruct (medicated_get_score_held a c w E) as (m & _ & Hs).
      eexists. simpl. rewrite Hs.
      split; [reflexivity|]. right. eexists; reflexivity.
  - eexists. rewrite (sluggish_get_score_run a c w).
    split; [reflexivity|]. right. eexists; reflexivity.
Qed.

(** ** The dictionaries of scores, entry by entry *)

Lemma dict_set_in_key {V} k (v : V) d : In k (map fst (dict_set k v d)).
Proof.
  induction d as [|[k0 v0] d IH]; simpl; [auto|].
  destruct (String.eqb_spec k k0); simpl; auto.
Qed.

Lemma dict_set_in_old {V} k (v : V) d k' :
  In k' (map fst d) -> In k' (map fst (dict_set k v d)).
Proof.
  induction d as [|[k0 v0] d IH]; simpl; [tauto|].
  destruct (String.eqb_spec k k0) as [-> | Hne]; simpl; tauto.
Qed.

Lemma dict_set_keys {V} k (v : V) d k' :
  In k' (map fst (dict_set k v d)) <-> k' = k \/ In k' (map fst d).
Proof.
  split.
  - apply dict_set_in.
  - intros [-> | H]; [apply dict_set_in_key | apply dict_set_in_old; exact H].
Qed.

Lemma dict_set_fresh {V} k (v : V) d :
  ~ In k (map fst d) -> dict_set k v d = d ++ [(k, v)].
Proof.
  induction d as [|[k0 v0] d IH]; simpl; intros Hk; [reflexivity|].
  destruct (String.eqb_spec k k0) as [-> | Hne]; [tauto|].
  rewrite IH by tauto. reflexivity.
Qed.

Lemma dict_set_entries {V} k (v : V) d e :
  NoDup (map fst d) ->
  In e (dict_set k v d) <-> e = (k, v) \/ (In e d /\ fst e <> k).
Proof.
  induction d as [|[k0 v0] d IH]; simpl; intros Hnd.
  - split; [intros [<- | []]; auto | intros [-> | [[] _]]; auto].
  - inversion Hnd as [|? ? Hnotin Hnd']; subst.
    destruct (String.eqb_spec k k0) as [-> | Hne]; simpl.
    + split.
      * intros [<- | H]; [auto|]. right. split; [auto|].
        intros E. apply Hnotin. rewrite <- E. apply in_map. exact H.
      * intros [-> | [[<- | H] Hk]]; [auto | simpl in Hk; congruence | auto].
    + rewrite (IH Hnd'). split.
      * intros [<- | [-> | [H Hk]]]; [right; split; [auto | simpl; congruence] | auto | auto].
      * intros [-> | [[<- | H] Hk]]; auto.
Qed.

Lemma adopter_scores_names c l :
  forall d w d' w',
    adopter_scores c l d w = (Ok d', w') ->
    forall nm, In nm (map fst d') <-> In nm (map fst d) \/ In nm (adopter_names l).
Proof.
  induction l as [|a l IH]; simpl; intros d w d' w' H nm.
  - injection H as <- _. tauto.
  - destruct (get_score_returns a c w) as (v & w1 & Hs & _ & _).
    unfold bind in H at 1. rewrite Hs in H.
    rewrite (IH _ _ _ _ H nm), dict_set_keys. intuition congruence.
Qed.

Lemma center_scores_names a l :
  forall d w d' w',
    center_scores a l d w = (Ok d', w') ->
    forall nm, In nm (map fst d') <-> In nm (map fst d) \/ In nm (center_names w l).
Proof.
  induction l as [|c l IH]; simpl; intros d w d' w' H nm.
  - injection H as <- _. tauto.
  - destruct (get_score_returns a c w) as (v & w1 & Hs & Hw1 & _).
    unfold bind in H at 1. rewrite Hs in H.
    rewrite (bind_reads _ _ _ _ (reads_get_name c)) in H.
    rewrite (IH _ _ _ _ H nm), dict_set_keys.
    unfold center_names. rewrite Hw1. intuition congruence.
Qed.

Lemma distinct_count (l1 l2 : list string) :
  NoDup l1 -> (forall x, In x l1 <-> In x l2) ->
  List.length l1 = List.length (nodup string_dec l2).
Proof.
  intros Hnd Hin. apply Permutation_length. apply NoDup_Permutation.
  - exact Hnd.
  - apply NoDup_nodup.
  - intros x. rewrite nodup_In. apply Hin.
Qed.

Lemma perm_keys {V} (d s : dict V) k :
  Permutation d s -> In k (map fst d) <-> In k (map fst s).
Proof.
  intros H. split; apply Permutation_in; [|symmetry]; apply Permutation_map; exact H.
Qed.

Lemma draws_succ k w : draws (S k) w = draws k (after_draws w).
Proof. unfold draws. apply Nat.iter_succ_r. Qed.

Lemma draws_objects k w : objects (draws k w) = objects w.
Proof.
  induction k as [|k IH]; [reflexivity|]. unfold draws in *. simpl. exact IH.
Qed.

Lemma center_names_frame w w1 l :
  objects w1 = objects w -> center_names w1 l = center_names w l.
Proof. intros E. unfold center_names. rewrite E. reflexivity. Qed.

(** The entries of a list of centers, by its first center. *)
Lemma center_entry_cons a c l w v w1 e :
  get_score a c w = (Ok v, w1) ->
  center_entry a (c :: l) w e
  <-> (e = (name (objects w c), v) /\ ~ In (fst e) (center_names w l))
      \/ center_entry a l w1 e.
Proof.
  intros Hs.
  destruct (get_score_run a c w) as (v' & Hrun & _).
  rewrite Hs in Hrun. injection Hrun as _ Hw1.
  assert (objects w1 = objects w) as Hobj
    by (rewrite Hw1; destruct (is_sluggish a); reflexivity).
  assert (forall l1 : list ref,
            draws (if is_sluggish a then List.length (c :: l1) else 0) w
            = draws (if is_sluggish a then List.length l1 else 0) w1) as Hstate.
  { intros l1. rewrite Hw1. destruct (is_sluggish a); [|reflexivity].
    simpl List.length. apply draws_succ. }
  split.
  - intros (l1 & c0 & l2 & Hl & Hn & Hlast & Hv).
    destruct l1 as [|c1 l1]; simpl in Hl; injection Hl as -> ->.
    + left. replace (draws _ w) with w in Hv by (destruct (is_sluggish a); reflexivity).
      rewrite Hs in Hv. simpl in Hv. injection Hv as ->.
      split; [|exact Hlast]. destruct e; simpl in *. congruence.
    + right. exists l1, c0, l2. rewrite Hobj, (center_names_frame _ _ _ Hobj).
      rewrite <- Hstate. repeat split; assumption.
  - intros [[-> Hlast] | (l1 & c0 & l2 & -> & Hn & Hlast & Hv)].
    + exists [], c, l.
      replace (draws _ w) with w by (destruct (is_sluggish a); reflexivity).
      simpl in *. rewrite Hs. repeat split. exact Hlast.
    + exists (c :: l1), c0, l2.
      rewrite Hobj in Hn. rewrite (center_names_frame _ _ _ Hobj) in Hlast.
      rewrite Hstate. repeat split; assumption.
Qed.

Lemma adopter_entry_cons c a l w v w1 e :
  get_score a c w = (Ok v, w1) ->
  adopter_entry c (a :: l) w e
  <-> (e = (adopter_get_name a, v) /\ ~ In (fst e) (adopter_names l))
      \/ adopter_entry c l w1 e.
Proof.
  intros Hs.
  destruct (get_score_run a c w) as (v' & Hrun & _).
  rewrite Hs in Hrun. injection Hrun as _ Hw1.
  assert (forall l1, draws (sluggish_count (a :: l1)) w
                     = draws (sluggish_count l1) w1) as Hstate.
  { intros l1. rewrite Hw1. unfold sluggish_count. simpl filter.
    destruct (is_sluggish a); [|reflexivity]. simpl List.length. apply draws_succ. }
  split.
  - intros (l1 & a0 & l2 & Hl & Hn & Hlast & Hv).
    destruct l1 as [|a1 l1]; simpl in Hl; injection Hl as -> ->.
    + left. change (draws (sluggish_count []) w) with w in Hv.
      rewrite Hs in Hv. simpl in Hv. injection Hv as ->.
      split; [|exact Hlast]. destruct e; simpl in *. congruence.
    + right. exists l1, a0, l2. rewrite <- Hstate. repeat split; assumption.
  - intros [[-> Hlast] | (l1 & a0 & l2 & -> & Hn & Hlast & Hv)].
    + exists [], a, l. change (draws (sluggish_count []) w) with w.
      simpl in *. rewrite Hs. repeat split. exact Hlast.
    + exists (a :: l1), a0, l2. rewrite Hstate. repeat split; assumption.
Qed.

(** What the dictionary of a comprehension holds: the entries it started
    from whose name no listed center bears, and one entry per name of a
    listed center, that of the last center of the name. *)
Lemma center_scores_entries a l :
  forall d w d' w',
    NoDup (map fst d) ->
    center_scores a l d w = (Ok d', w') ->
    forall e, In e d' <-> (In e d /\ ~ In (fst e) (center_names w l))
                          \/ center_entry a l w e.
Proof.
  induction l as [|c l IH]; intros d w d' w' Hnd H e.
  - simpl in H. injection H as <- _. split.
    + intros He. left. split; [exact He | intros []].
    + intros [[He _] | (l1 & c & l2 & Hl & _)]; [exact He|].
      destruct l1; discriminate.
  - destruct (get_score_returns a c w) as (v & w1 & Hs & Hw1 & _).
    simpl in H. unfold bind in H at 1. rewrite Hs in H.
    rewrite (bind_reads _ _ _ _ (reads_get_name c)) in H. rewrite Hw1 in H.
    rewrite (IH _ _ _ _ (dict_set_nodup _ v _ Hnd) H e).
    rewrite (center_names_frame _ _ _ Hw1), (dict_set_entries _ _ _ _ Hnd).
    rewrite (center_entry_cons a c l w v w1 e Hs). simpl.
    intuition congruence.
Qed.

Lemma adopter_scores_entries c l :
  forall d w d' w',
    NoDup (map fst d) ->
    adopter_scores c l d w = (Ok d', w') ->
    forall e, In e d' <-> (In e d /\ ~ In (fst e) (adopter_names l))
                          \/ adopter_entry c l w e.
Proof.
  induction l as [|a l IH]; intros d w d' w' Hnd H e.
  - simpl in H. injection H as <- _. split.
    + intros He. left. split; [exact He | intros []].
    + intros [[He _] | (l1 & a & l2 & Hl & _)]; [exact He|].
      destruct l1; discriminate.
  - destruct (get_score_returns a c w) as (v & w1 & Hs & Hw1 & _).
    simpl in H. unfold bind in H at 1. rewrite Hs in H.
    rewrite (IH _ _ _ _ (dict_set_nodup _ v _ Hnd) H e).
    rewrite (dict_set_entries _ _ _ _ Hnd).
    rewrite (adopter_entry_cons c a l w v w1 e Hs). simpl.
    intuition congruence.
Qed.

(** ** The rankings *)

Lemma slice_to_negative {A} (l : list A) (k : nat) :
  slice_to l (- Z.of_nat (S k)) = firstn (List.length l - S k) l.
Proof.
  unfold slice_to.
  destruct (Z.ltb_spec (- Z.of_nat (S k)) 0) as [_ | H]; [|lia].
  f_equal. lia.
Qed.

Lemma slice_to_all {A} (l : list A) (n : nat) :
  (List.length l <= n)%nat -> slice_to l (Z.of_nat n) = l.
Proof.
  intros H. unfold slice_to.
  destruct (Z.ltb_spec (Z.of_nat n) 0) as [Hn | _]; [lia|].
  rewrite Nat2Z.id. apply firstn_all2. exact H.
Qed.


Lemma slice_to_nat {A} (l : list A) (k : nat) :
  slice_to l (Z.of_nat k) = firstn k l.
Proof.
  unfold slice_to.
  destruct (Z.ltb_spec (Z.of_nat k) 0) as [H | _]; [lia|].
  rewrite Nat2Z.id. reflexivity.
Qed.

Lemma perm_in {A} (d s : list A) e : Permutation d s -> In e s <-> In e d.
Proof.
  intros H. split; apply Permutation_in; [symmetry|]; exact H.
Qed.

(** The ranking of centers: it returns, and what it returns. *)
Lemma center_ranking_spec a l w :
  exists sorted_ac w',
    get_ordered_adoption_center_list a l w
    = (Ok [(adopter_get_name a, sorted_ac)], w')
    /\ objects w' = objects w
    /\ (forall nm, In nm (map fst sorted_ac) <-> In nm (center_names w l))
    /\ NoDup (map fst sorted_ac)
    /\ (forall e, In e sorted_ac <-> center_entry a l w e)
    /\ StronglySorted ranked_before sorted_ac.
Proof.
  destruct (center_scores_spec a l [] w scores_ok_empty)
    as (d & w' & Hr & Hw & [Hnd Hsh] & _).
  destruct (sorted_reverse_spec d Hnd Hsh) as (s & Hs & Hperm & Hsorted).
  exists s, w'.
  split; [|split; [exact Hw|split]].
  { unfold get_ordered_adoption_center_list.
    unfold bind at 1. rewrite Hr. unfold bind, lift. rewrite Hs. reflexivity. }
  { intros nm. rewrite <- (perm_keys _ _ nm Hperm).
    rewrite (center_scores_names _ _ _ _ _ _ Hr nm). simpl. tauto. }
  repeat split; try assumption.
  - eapply Permutation_NoDup; [|exact Hnd]. apply Permutation_map. exact Hperm.
  - intros He. apply (perm_in _ _ e Hperm) in He.
    apply (center_scores_entries a l [] w d w' (NoDup_nil _) Hr e) in He.
    destruct He as [[[] _] | He]. exact He.
  - intros He. apply (perm_in _ _ e Hperm).
    apply (center_scores_entries a l [] w d w' (NoDup_nil _) Hr e).
    right. exact He.
Qed.

(** The ranking of adopters, for every [n]. *)
Lemma adopter_ranking_spec c l w :
  exists sorted_adopters w',
    (forall n, get_adopters_for_advertisement c l n w
               = (Ok [(name (objects w c), slice_to sorted_adopters n)], w'))
    /\ objects w' = objects w
    /\ (forall nm, In nm (map fst sorted_adopters) <-> In nm (adopter_names l))
    /\ NoDup (map fst sorted_adopters)
    /\ (forall e, In e sorted_adopters <-> adopter_entry c l w e)
    /\ StronglySorted ranked_before sorted_adopters
    /\ (List.length sorted_adopters <= List.length l)%nat.
Proof.
  destruct (adopter_scores_spec c l [] w scores_ok_empty)
    as (d & w' & Hr & Hw & [Hnd Hsh] & Hlen).
  destruct (sorted_reverse_spec d Hnd Hsh) as (s & Hs & Hperm & Hsorted).
  exists s, w'.
  split; [|split; [exact Hw|split]].
  { intros n. unfold get_adopters_for_advertisement.
    unfold bind at 1. rewrite Hr. unfold bind at 1. unfold lift. rewrite Hs.
    rewrite (bind_reads _ _ _ _ (reads_get_name c)). rewrite Hw. reflexivity. }
  { intros nm. rewrite <- (perm_keys _ _ nm Hperm).
    rewrite (adopter_scores_names _ _ _ _ _ _ Hr nm). simpl. tauto. }
  repeat split; try assumption.
  - eapply Permutation_NoDup; [|exact Hnd]. apply Permutation_map. exact Hperm.
  - intros He. apply (perm_in _ _ e Hperm) in He.
    apply (adopter_scores_entries c l [] w d w' (NoDup_nil _) Hr e) in He.
    destruct He as [[[] _] | He]. exact He.
  - intros He. apply (perm_in _ _ e Hperm).
    apply (adopter_scores_entries c l [] w d w' (NoDup_nil _) Hr e).
    right. exact He.
  - rewrite <- (Permutation_length Hperm). simpl in Hlen. exact Hlen.
Qed.



(** C3 as stated fails: with [n = -1] the call does not fail; it returns
    the ranking without its last entry. *)
Lemma negative_n_is_not_an_error :
  -1 < 0
  /\ fst (get_adopters_for_advertisement 0%nat [adopter2; adopter4] (-1)
            demo_world)
     = Ok [("Place1", [("Two", PyInt 12)])]%string
  /\ ~ exists e, fst (get_adopters_for_advertisement 0%nat
                        [adopter2; adopter4] (-1) demo_world) = Raise e.
Proof.
  split; [reflexivity|]. split; [vm_compute; reflexivity|].
  intros [e H]. vm_compute in H. discriminate.
Qed.

(** C3, as the code has it: for every center and every list of adopters
    with scores in range, a negative [n] is no error: the call then returns
    the sorted list without its last [-n] entries, so an empty list when
    [-n] is at least its length.  With [n = 0] it returns the empty list,
    and with an [n] of at least the length of the adopter list it returns
    the whole sorted list. *)
Theorem get_adopters_for_advertisement_truncation (c : ref) (l : list adopter)
    (w : world) :
  Forall (fun a => in_range a (objects w c)) l ->
  exists sorted_adopters w',
    StronglySorted ranked_before sorted_adopters
    /\ (forall e, In e sorted_adopters <-> adopter_entry c l w e)
    /\ (forall k : nat,
          get_adopters_for_advertisement c l (- Z.of_nat (S k)) w
          = (Ok [(name (objects w c),
                  firstn (List.length sorted_adopters - S k) sorted_adopters)],
             w'))
    /\ (forall k : nat,
          (List.length sorted_adopters <= S k)%nat ->
          get_adopters_for_advertisement c l (- Z.of_nat (S k)) w
          = (Ok [(name (objects w c), [])], w'))
    /\ get_adopters_for_advertisement c l 0 w
       = (Ok [(name (objects w c), [])], w')
    /\ (forall k : nat,
          get_adopters_for_advertisement c l (Z.of_nat (List.length l + k)) w
          = (Ok [(name (objects w c), sorted_adopters)], w')).
Proof.
  intros _.
  destruct (adopter_ranking_spec c l w)
    as (s & w' & Hr & _ & _ & _ & He & Hs & Hlen).
  exists s, w'. repeat split; try assumption; try apply He.
  - intros k. rewrite Hr, slice_to_negative. reflexivity.
  - intros k Hk. rewrite Hr, slice_to_negative.
    replace (List.length s - S k)%nat with 0%nat by lia. reflexivity.
  - rewrite Hr. reflexivity.
  - intros k. rewrite Hr, slice_to_all; [reflexivity | lia].
Qed.

(** The script's six adopters at its first center. *)
Lemma get_adopters_for_advertisement_truncation_witness :
  let c := 0%nat in
  let l := [adopter1; adopter2; adopter3; adopter4; adopter5; adopter6] in
  let w := demo_world in
  Forall (fun a => in_range a (objects w c)) l
  /\ exists sorted_adopters w',
       StronglySorted ranked_before sorted_adopters
       /\ (forall e, In e sorted_adopters <-> adopter_entry c l w e)
       /\ (forall k : nat,
             get_adopters_for_advertisement c l (- Z.of_nat (S k)) w
             = (Ok [(name (objects w c),
                     firstn (List.length sorted_adopters - S k) sorted_adopters)],
                w'))
       /\ (forall k : nat,
             (List.length sorted_adopters <= S k)%nat ->
             get_adopters_for_advertisement c l (- Z.of_nat (S k)) w
             = (Ok [(name (objects w c), [])], w'))
       /\ get_adopters_for_advertisement c l 0 w
          = (Ok [(name (objects w c), [])], w')
       /\ (forall k : nat,
             get_adopters_for_advertisement c l (Z.of_nat (List.length l + k)) w
             = (Ok [(name (objects w c), sorted_adopters)], w')).
Proof.
  intros c l w.
  assert (Forall (fun a => in_range a (objects w c)) l) as H
    by in_range_holds.
  split; [exact H|].
  exact (get_adopters_for_advertisement_truncation c l w H).
Defined.

(** ** Ties after rounding *)



(** ** Entities that share a name *)

(** C4 fails on the code: of two centers named Place1, with 12 and 40
    cats, only the entry of the second one is in the ranking; of two
    adopters named Two only the second one is. *)
Theorem same_name_entries_collide :
  fst (get_ordered_adoption_center_list adopter2 [0; 1]%nat same_name_world)
  = Ok [("Two", [("Place1", PyInt 40)])]%string
  /\ fst (get_adopters_for_advertisement 0%nat
            [adopter2; IsAdopter (Adopter.make "Two" "Dog")] 10 same_name_world)
     = Ok [("Place1", [("Two", PyInt 2)])]%string.
Proof. split; vm_compute; reflexivity. Qed.

(** ** Sluggish adopters *)


(** ** The order of a dictionary's items does not matter *)

Lemma ranked_before_asym x y : ranked_before x y -> ranked_before y x -> False.
Proof.
  intros (fx & fy & Hx & Hy & H) (fy' & fx' & Hy' & Hx' & H').
  rewrite Hx in Hx'. rewrite Hy in Hy'.
  injection Hx' as <-. injection Hy' as <-.
  destruct H as [H | [E H]], H' as [H' | [E' H']]; try lra.
  pose proof (string_ltb_trans _ _ _ H H') as T.
  rewrite string_ltb_irrefl in T. discriminate.
Qed.

Lemma sorted_unique {A} (R : A -> A -> Prop) (l1 l2 : list A) :
  (forall x y, R x y -> R y x -> False) ->
  StronglySorted R l1 -> StronglySorted R l2 -> Permutation l1 l2 -> l1 = l2.
Proof.
  intros Hasym H1. revert l2.
  induction H1 as [|x r1 Hs1 IH Hall1]; intros l2 H2 Hp.
  - apply Permutation_nil in Hp. congruence.
  - destruct H2 as [|y r2 Hs2 Hall2].
    + apply Permutation_sym, Permutation_nil in Hp. discriminate.
    + assert (x = y) as ->.
      { assert (In x (y :: r2)) as [E | Hx]
          by (apply (Permutation_in _ Hp); left; reflexivity); [congruence|].
        assert (In y (x :: r1)) as [E | Hy]
          by (apply (Permutation_in _ (Permutation_sym Hp)); left; reflexivity);
          [congruence|].
        rewrite Forall_forall in Hall1, Hall2.
        destruct (Hasym _ _ (Hall1 _ Hy) (Hall2 _ Hx)). }
      f_equal. apply IH; [exact Hs2|].
      exact (Permutation_cons_inv Hp).
Qed.

(** Python 2 lists the items of a dictionary in an order of its own;
    whatever that order is, [sorted] returns the same ranking. *)
Lemma sorted_reverse_any_order (d d' : dict pyval) :
  NoDup (map fst d) -> Forall (fun x => score_shaped (snd x)) d ->
  Permutation d d' ->
  sorted_reverse sort_key (items d') = sorted_reverse sort_key (items d).
Proof.
  intros Hnd Hsh Hp.
  destruct (sorted_reverse_spec d Hnd Hsh) as (l & -> & Hpl & Hsl).
  destruct (sorted_reverse_spec d') as (l' & -> & Hpl' & Hsl').
  - eapply Permutation_NoDup; [|exact Hnd]. apply Permutation_map. exact Hp.
  - exact (Permutation_Forall Hp Hsh).
  - f_equal. apply (sorted_unique ranked_before); try assumption.
    + exact ranked_before_asym.
    + rewrite <- Hpl', <- Hpl. symmetry. exact Hp.
Qed.

(** * Further properties of the code *)

(** ** Counting species *)

(** X1: [get_number_of_species] never fails and changes nothing: a species
    without an entry in the inventory counts 0, a species with an entry
    counts what the entry says; the lookup behind the membership test never
    raises [KeyError]. *)
Theorem get_number_of_species_never_fails (self : ref) (animal : string)
    (w : world) :
  exists n,
    get_number_of_species self animal w = (Ok n, w)
    /\ (dict_get animal (species_types (objects w self)) = None -> n = 0)
    /\ (forall m, dict_get animal (species_types (objects w self)) = Some m ->
                  n = m).
Proof.
  exists (count (objects w self) animal).
  split; [apply reads_get_number_of_species|].
  unfold count. split.
  - intros ->. reflexivity.
  - intros m ->. reflexivity.
Qed.

Lemma fold_add_shift l a : fold_left Z.add l a = a + sum l.
Proof.
  unfold sum. revert a. induction l as [|x l IH]; intros a; simpl; [lia|].
  rewrite (IH (a + x)), (IH x). lia.
Qed.

Lemma sum_cons x l : sum (x :: l) = x + sum l.
Proof. unfold sum at 1. simpl. apply fold_add_shift. Qed.

Lemma sum_zero l : Forall (fun x => x = 0) l -> sum l = 0.
Proof.
  induction 1 as [|x l Hx _ IH]; [reflexivity|]. rewrite sum_cons. lia.
Qed.

Lemma counts_zero c l :
  (forall s, In s l -> count c s = 0) ->
  Forall (fun x => x = 0) (map (count c) l).
Proof.
  intros H. apply Forall_forall. intros x Hx.
  apply in_map_iff in Hx. destruct Hx as (s & <- & Hs). auto.
Qed.

Lemma float_format_whole x n :
  (x == inject_Z n)%Q ->
  exists k, float (score_format x) = Ok k /\ (k == inject_Z n)%Q.
Proof.
  intros E. unfold score_format. rewrite (format_1f_compat _ _ E).
  apply float_format_int.
Qed.

(** ** Flexible and fearful adopters *)

(** X2: at a center where the count of the desired species and the sum of
    the counts of the considered species are in range, a flexible adopter
    never scores below the count of its desired species, and scores exactly
    that count when the center holds none of the species it considers (an
    empty list of considered species included); the call changes
    nothing. *)
Theorem flexible_score_bounds (a : FlexibleAdopter.t) (c : ref) (w : world) :
  in_range (IsFlexible a) (objects w c) ->
  exists v k,
    get_score (IsFlexible a) c w = (Ok v, w) /\ float v = Ok k
    /\ (inject_Z (count (objects w c)
                    (Adopter.desired_species (FlexibleAdopter.base a))) <= k)%Q
    /\ ((forall s, In s (FlexibleAdopter.considered_species a) ->
                   count (objects w c) s = 0) ->
        (k == inject_Z (count (objects w c)
                          (Adopter.desired_species (FlexibleAdopter.base a))))%Q).
Proof.
  intros [_ [Hs _]]. simpl. unfold FlexibleAdopter.get_score.
  rewrite (bind_reads _ _ _ _ (reads_flexible_raw a c)). unfold ret.
  set (n := count (objects w c) (Adopter.desired_species (FlexibleAdopter.base a))).
  set (l := FlexibleAdopter.considered_species a) in *.
  destruct (float_score_format
              (inject_Z n + (3 # 10) * inject_Z (sum (map (count (objects w c)) l))))
    as (k & Hk & _).
  eexists; exists k. split; [reflexivity|]. split; [exact Hk|]. split.
  - refine (float_score_format_ge _ n _ k Hk).
    rewrite Zle_Qle in Hs. change (inject_Z 0) with 0%Q in Hs. lra.
  - intros Hnone.
    destruct (float_format_whole
                (inject_Z n + (3 # 10) * inject_Z (sum (map (count (objects w c)) l))) n)
      as (k' & Hk' & E).
    + rewrite (sum_zero _ (counts_zero _ l Hnone)).
      change (inject_Z 0) with 0%Q. ring.
    + rewrite Hk in Hk'. injection Hk' as <-. exact E.
Qed.

Lemma flexible_score_bounds_witness :
  let a := FlexibleAdopter.make (Adopter.make "Three" "Horse")
             ["Lizard"; "Cat"]%string in
  let w := flexible_example_world in
  in_range (IsFlexible a) (objects w 0%nat)
  /\ exists v k,
       get_score (IsFlexible a) 0%nat w = (Ok v, w) /\ float v = Ok k
       /\ (inject_Z (count (objects w 0%nat)
                       (Adopter.desired_species (FlexibleAdopter.base a))) <= k)%Q
       /\ ((forall s, In s (FlexibleAdopter.considered_species a) ->
                      count (objects w 0%nat) s = 0) ->
           (k == inject_Z (count (objects w 0%nat)
                             (Adopter.desired_species (FlexibleAdopter.base a))))%Q).
Proof.
  intros a w.
  assert (in_range (IsFlexible a) (objects w 0%nat)) as H
    by in_range_holds.
  split; [exact H|]. exact (flexible_score_bounds a 0%nat w H).
Defined.

(** X3: at a center where the count of the desired species and the sum of
    the counts of the feared species are in range, a fearful adopter never
    scores above the count of its desired species, and scores exactly that
    count when the center holds none of the species it fears; the call
    changes nothing. *)
Theorem fearful_score_bounds (a : FearfulAdopter.t) (c : ref) (w : world) :
  in_range (IsFearful a) (objects w c) ->
  exists v k,
    get_score (IsFearful a) c w = (Ok v, w) /\ float v = Ok k
    /\ (k <= inject_Z (count (objects w c)
                         (Adopter.desired_species (FearfulAdopter.base a))))%Q
    /\ ((forall s, In s (FearfulAdopter.feared_species a) ->
                   count (objects w c) s = 0) ->
        (k == inject_Z (count (objects w c)
                          (Adopter.desired_species (FearfulAdopter.base a))))%Q).
Proof.
  intros [_ [Hs _]]. simpl. unfold FearfulAdopter.get_score.
  rewrite (bind_reads _ _ _ _ (reads_fearful_raw a c)). unfold ret.
  set (n := count (objects w c) (Adopter.desired_species (FearfulAdopter.base a))).
  set (l := FearfulAdopter.feared_species a) in *.
  destruct (float_score_format
              (inject_Z n - (3 # 10) * inject_Z (sum (map (count (objects w c)) l))))
    as (k & Hk & _).
  eexists; exists k. split; [reflexivity|]. split; [exact Hk|]. split.
  - refine (float_score_format_le _ n _ k Hk).
    rewrite Zle_Qle in Hs. change (inject_Z 0) with 0%Q in Hs. lra.
  - intros Hnone.
    destruct (float_format_whole
                (inject_Z n - (3 # 10) * inject_Z (sum (map (count (objects w c)) l))) n)
      as (k' & Hk' & E).
    + rewrite (sum_zero _ (counts_zero _ l Hnone)).
      change (inject_Z 0) with 0%Q. ring.
    + rewrite Hk in Hk'. injection Hk' as <-. exact E.
Qed.

Lemma fearful_score_bounds_witness :
  let a := FearfulAdopter.init "Four" "Cat" (One "Dog") in
  in_range (IsFearful a) (objects demo_world 0%nat)
  /\ exists v k,
       get_score (IsFearful a) 0%nat demo_world = (Ok v, demo_world)
       /\ float v = Ok k
       /\ (k <= inject_Z (count (objects demo_world 0%nat)
                            (Adopter.desired_species (FearfulAdopter.base a))))%Q
       /\ ((forall s, In s (FearfulAdopter.feared_species a) ->
                      count (objects demo_world 0%nat) s = 0) ->
           (k == inject_Z (count (objects demo_world 0%nat)
                             (Adopter.desired_species (FearfulAdopter.base a))))%Q).
Proof.
  intros a.
  assert (in_range (IsFearful a) (objects demo_world 0%nat)) as H
    by in_range_holds.
  split; [exact H|]. exact (fearful_score_bounds a 0%nat demo_world H).
Defined.

(** ** Medicated allergic adopters: both branches *)

Lemma none_held_forallb c l :
  (forall s, In s l -> count c s = 0) ->
  forallb (fun i => count c i =? 0) l = true.
Proof.
  intros H. apply forallb_forall. intros s Hs. rewrite (H s Hs). reflexivity.
Qed.


(** X4: when the center holds none of the allergic species (an empty list
    of them included), a medicated adopter gets exactly what the plain
    allergic adopter it extends gets; its medicine table is not read. *)
Theorem medicated_without_allergens (a : MedicatedAllergicAdopter.t) (c : ref)
    (w : world) :
  (forall s, In s (AllergicAdopter.allergic_species
                     (MedicatedAllergicAdopter.base a)) ->
             count (objects w c) s = 0) ->
  get_score (IsMedicated a) c w
  = get_score (IsAllergic (MedicatedAllergicAdopter.base a)) c w.
Proof.
  intros H. pose proof (none_held_forallb _ _ H) as E. simpl.
  rewrite (medicated_get_score_clear a c w E).
  rewrite (reads_allergic_get_score _ c w), E. reflexivity.
Qed.

Lemma medicated_without_allergens_witness :
  let a :=
    MedicatedAllergicAdopter.make
      (AllergicAdopter.init "One" "Cat" (Many ["Dog"; "Horse"]%string))
      [("Dog", 5 # 10); ("Horse", 2 # 10)]%string in
  (forall s, In s (AllergicAdopter.allergic_species
                     (MedicatedAllergicAdopter.base a)) ->
             count (objects demo_world 1%nat) s = 0)
  /\ get_score (IsMedicated a) 1%nat demo_world
     = get_score (IsAllergic (MedicatedAllergicAdopter.base a)) 1%nat demo_world.
Proof.
  intros a.
  assert (forall s, In s (AllergicAdopter.allergic_species
                            (MedicatedAllergicAdopter.base a)) ->
                    count (objects demo_world 1%nat) s = 0) as H.
  { intros s [<- | [<- | []]]; reflexivity. }
  split; [exact H|]. exact (medicated_without_allergens a 1%nat demo_world H).
Defined.



Example medicated_cap :
  fst (get_score (IsMedicated capped_adopter) 0%nat demo_world)
  = Ok (PyStr "12.0").
Proof. reflexivity. Qed.

(** X6: with every multiplier of the table in [0,1], no negative count at
    the center and fewer than 2^31 animals of the desired species, the score
    of a medicated adopter reads as a number between 0 and the count of its
    desired species, whether the center holds an allergic species or
    not. *)
Theorem medicated_score_bounds (a : MedicatedAllergicAdopter.t) (c : ref)
    (w : world) :
  Forall (fun e => 0 <= snd e <= 1)%Q
    (MedicatedAllergicAdopter.medicine_effectiveness a) ->
  nonneg_inventory (objects w c) ->
  count (objects w c)
    (Adopter.desired_species
       (AllergicAdopter.base (MedicatedAllergicAdopter.base a))) < 2 ^ 31 ->
  exists v k,
    get_score (IsMedicated a) c w = (Ok v, w) /\ float v = Ok k
    /\ (0 <= k <= inject_Z (count (objects w c)
                              (Adopter.desired_species
                                 (AllergicAdopter.base
                                    (MedicatedAllergicAdopter.base a)))))%Q.
Proof.
  intros Heff Hinv _.
  set (n := count (objects w c)
              (Adopter.desired_species
                 (AllergicAdopter.base (MedicatedAllergicAdopter.base a)))).
  assert (0 <= inject_Z n)%Q as Hn.
  { change 0%Q with (inject_Z 0). rewrite <- Zle_Qle.
    apply count_nonneg. exact Hinv. }
  simpl.
  destruct (forallb (fun i => count (objects w c) i =? 0)
              (AllergicAdopter.allergic_species (MedicatedAllergicAdopter.base a)))
    eqn:E.
  - rewrite (medicated_get_score_clear a c w E). fold n.
    destruct (float_score_format (inject_Z n)) as (k & Hk & _).
    eexists; exists k. split; [reflexivity|]. split; [exact Hk|]. split.
    + refine (float_score_format_ge _ 0 _ k Hk). exact Hn.
    + refine (float_score_format_le _ n _ k Hk). lra.
  - destruct (min_spec _ (multipliers_nonempty a _ E)) as (m & Hm & Hin & _).
    pose proof (multipliers_unit a _ m Heff Hin) as Hunit.
    pose proof (medicated_get_score_min a c w m E Hm) as Hs. simpl in Hs.
    rewrite Hs. fold n.
    destruct (float_score_format (m * inject_Z n)) as (k & Hk & _).
    eexists; exists k. split; [reflexivity|]. split; [exact Hk|]. split.
    + refine (float_score_format_ge _ 0 _ k Hk). change (inject_Z 0) with 0%Q. nra.
    + refine (float_score_format_le _ n _ k Hk). nra.
Qed.

Lemma medicated_score_bounds_witness :
  let a :=
    MedicatedAllergicAdopter.make
      (AllergicAdopter.init "One" "Cat" (Many ["Dog"; "Horse"]%string))
      [("Dog", 5 # 10); ("Horse", 2 # 10)]%string in
  let w := medicated_example_world in
  Forall (fun e => 0 <= snd e <= 1)%Q
    (MedicatedAllergicAdopter.medicine_effectiveness a)
  /\ nonneg_inventory (objects w 0%nat)
  /\ count (objects w 0%nat)
       (Adopter.desired_species
          (AllergicAdopter.base (MedicatedAllergicAdopter.base a))) < 2 ^ 31
  /\ exists v k,
       get_score (IsMedicated a) 0%nat w = (Ok v, w) /\ float v = Ok k
       /\ (0 <= k <= inject_Z (count (objects w 0%nat)
                                 (Adopter.desired_species
                                    (AllergicAdopter.base
                                       (MedicatedAllergicAdopter.base a)))))%Q.
Proof.
  intros a w.
  assert (Forall (fun e => 0 <= snd e <= 1)%Q
            (MedicatedAllergicAdopter.medicine_effectiveness a)) as H1
    by (repeat constructor; simpl; discriminate).
  assert (nonneg_inventory (objects w 0%nat)) as H2
    by (repeat constructor; simpl; discriminate).
  assert (count (objects w 0%nat)
            (Adopter.desired_species
               (AllergicAdopter.base (MedicatedAllergicAdopter.base a))) < 2 ^ 31)
    as H3 by reflexivity.
  repeat (split; [assumption|]).
  exact (medicated_score_bounds a 0%nat w H1 H2 H3).
Defined.

(** ** Sluggish adopters, at every distance *)

Lemma squares_zero (a b : Q) :
  (0 <= a ^ 2 + b ^ 2)%Q
  /\ ((a ^ 2 + b ^ 2 == 0)%Q <-> (a == 0 /\ b == 0)%Q).
Proof.
  simpl. split; [nra|]. split.
  - intros H. split; nra.
  - intros [-> ->]. ring.
Qed.

(** Between two places with whole coordinates below 2^25 the square of the
    distance is a whole number below 2^53. *)
Lemma distance2_whole (p q : Q * Q) :
  whole_place p -> whole_place q ->
  exists z, 0 <= z < 2 ^ 53
            /\ ((fst p - fst q) ^ 2 + (snd p - snd q) ^ 2 == inject_Z z)%Q.
Proof.
  intros (x & y & -> & Hx & Hy) (x' & y' & -> & Hx' & Hy').
  exists ((x - x') * (x - x') + (y - y') * (y - y')). split.
  - assert (forall d, - 2 ^ 26 < d < 2 ^ 26 -> 0 <= d * d < 2 ^ 52) as Hsq
      by (intros d Hd; nia).
    pose proof (Hsq (x - x') ltac:(lia)). pose proof (Hsq (y - y') ltac:(lia)).
    lia.
  - simpl fst. simpl snd.
    rewrite inject_Z_plus, !inject_Z_mult. unfold Z.sub.
    rewrite !inject_Z_plus, !inject_Z_opp. simpl. ring.
Qed.

(** X7: between an adopter and a center at places with whole coordinates
    below 2^25, [distance] never fails and changes nothing: the number under
    the square root is a whole number from 0 to below 2^53, a sum of two
    squares, and it is 0 exactly when the center and the adopter are at the
    same place. *)
Theorem sluggish_distance_never_fails (a : SluggishAdopter.t) (c : ref)
    (w : world) :
  whole_place (location (objects w c)) ->
  whole_place (SluggishAdopter.location a) ->
  exists d,
    SluggishAdopter.distance a c w = (Ok d, w)
    /\ (exists z, 0 <= z < 2 ^ 53 /\ (radicand d == inject_Z z)%Q)
    /\ ((radicand d == 0)%Q <->
        (fst (location (objects w c)) == fst (SluggishAdopter.location a)
         /\ snd (location (objects w c)) == snd (SluggishAdopter.location a))%Q).
Proof.
  intros Hc Ha.
  exists (Sqrt (distance2 a (objects w c))).
  split; [apply sluggish_distance_run|]. unfold distance2. simpl radicand.
  split; [exact (distance2_whole _ _ Hc Ha)|].
  set (x := fst (location (objects w c))). set (y := snd (location (objects w c))).
  set (x' := fst (SluggishAdopter.location a)).
  set (y' := snd (SluggishAdopter.location a)).
  destruct (squares_zero (x - x') (y - y')) as [Hpos Hzero].
  rewrite Hzero. split; intros [Hx Hy]; split; lra.
Qed.

(** The script's sluggish adopter and its first center. *)
Lemma sluggish_distance_never_fails_witness :
  let a := SluggishAdopter.make (Adopter.make "Five" "Cat") (1, 2)%Q in
  whole_place (location (objects demo_world 0%nat))
  /\ whole_place (SluggishAdopter.location a)
  /\ exists d,
       SluggishAdopter.distance a 0%nat demo_world = (Ok d, demo_world)
       /\ (exists z, 0 <= z < 2 ^ 53 /\ (radicand d == inject_Z z)%Q)
       /\ ((radicand d == 0)%Q <->
           (fst (location (objects demo_world 0%nat))
            == fst (SluggishAdopter.location a)
            /\ snd (location (objects demo_world 0%nat))
               == snd (SluggishAdopter.location a))%Q).
Proof.
  intros a.
  assert (whole_place (location (objects demo_world 0%nat))) as H1
    by (exists 1, 1; repeat split).
  assert (whole_place (SluggishAdopter.location a)) as H2
    by (exists 1, 2; repeat split).
  split; [exact H1|]. split; [exact H2|].
  exact (sluggish_distance_never_fails a 0%nat demo_world H1 H2).
Defined.

(** X8: for places with whole coordinates below 2^25, a count in range and
    draws from 0 to 1, a sluggish adopter's [get_score] never fails: the
    index into [mapping] is always one of -1, 0, 1, 2, 3.  It draws three
    random numbers on every call, also when none of them is used, and
    returns a string: the text of the count of the desired species times a
    coefficient when that product is clear of ties, and in any case a text
    that reads as a number within a tenth of it.  The coefficient is the
    third draw (from 0.1 to 0.5) at distances below 1 and from 7 on, 1 from
    1 to below 3, the first draw (0.7 to 0.9) from 3 to below 5, the second
    draw (0.5 to 0.7) from 5 to below 7.  From 1 to below 3 the string is
    the text of the count. *)
Theorem sluggish_score_table (a : SluggishAdopter.t) (c : ref) (w : world) :
  whole_place (location (objects w c)) ->
  whole_place (SluggishAdopter.location a) ->
  modest (count (objects w c) (Adopter.desired_species (SluggishAdopter.base a))) ->
  (forall i, 0 <= rand w i <= 1)%Q ->
  exists x text k,
    get_score (IsSluggish a) c w
    = (Ok (PyStr text),
       {| objects := objects w; rand := fun n => rand w (3 + n)%nat |})
    /\ (clear_of_ties
          (inject_Z (count (objects w c)
                       (Adopter.desired_species (SluggishAdopter.base a))) * x) ->
        text = format_1f
                 (inject_Z (count (objects w c)
                              (Adopter.desired_species (SluggishAdopter.base a)))
                  * x))
    /\ float (PyStr text) = Ok k
    /\ (inject_Z (count (objects w c)
                    (Adopter.desired_species (SluggishAdopter.base a))) * x
        - (1 # 10) < k
        < inject_Z (count (objects w c)
                      (Adopter.desired_species (SluggishAdopter.base a))) * x
          + (1 # 10))%Q
    /\ ((distance2 a (objects w c) < 1)%Q ->
        x = ((1 # 10) + ((5 # 10) - (1 # 10)) * rand w 2%nat)%Q)
    /\ ((1 <= distance2 a (objects w c) < 9)%Q ->
        x = 1%Q
        /\ text = (decimal (count (objects w c)
                              (Adopter.desired_species (SluggishAdopter.base a)))
                   ++ ".0")%string)
    /\ ((9 <= distance2 a (objects w c) < 25)%Q ->
        x = ((7 # 10) + ((9 # 10) - (7 # 10)) * rand w 0%nat)%Q)
    /\ ((25 <= distance2 a (objects w c) < 49)%Q ->
        x = ((5 # 10) + ((7 # 10) - (5 # 10)) * rand w 1%nat)%Q)
    /\ ((49 <= distance2 a (objects w c))%Q ->
        x = ((1 # 10) + ((5 # 10) - (1 # 10)) * rand w 2%nat)%Q).
Proof.
  intros _ _ [Hn _] _.
  set (n := count (objects w c) (Adopter.desired_species (SluggishAdopter.base a)))
    in *.
  set (x := selected (distance2 a (objects w c))
              (draw1 (rand w)) (draw2 (rand w)) (draw3 (rand w))).
  destruct (float_near (inject_Z n * x)) as (k & Hk & Hnear).
  exists x, (format_1f (inject_Z n * x)), k.
  split; [exact (sluggish_get_score_run a c w)|].
  split; [intros _; reflexivity|]. split; [exact Hk|]. split; [exact Hnear|].
  unfold x, selected, draw1, draw2, draw3.
  destruct (Qltb_spec (distance2 a (objects w c)) 1),
    (Qltb_spec (distance2 a (objects w c)) 9),
    (Qltb_spec (distance2 a (objects w c)) 25),
    (Qltb_spec (distance2 a (objects w c)) 49);
    repeat split; intros; try reflexivity; try lra.
  all: rewrite <- (format_1f_whole n Hn); apply format_1f_compat; ring.
Qed.

(** The script's sluggish adopter and its first center, at distance 1. *)
Lemma sluggish_score_table_witness :
  let a := SluggishAdopter.make (Adopter.make "Five" "Cat") (1, 2)%Q in
  let c := 0%nat in
  let w := demo_world in
  whole_place (location (objects w c))
  /\ whole_place (SluggishAdopter.location a)
  /\ modest (count (objects w c) (Adopter.desired_species (SluggishAdopter.base a)))
  /\ (forall i, 0 <= rand w i <= 1)%Q
  /\ exists x text k,
       get_score (IsSluggish a) c w
       = (Ok (PyStr text),
          {| objects := objects w; rand := fun n => rand w (3 + n)%nat |})
       /\ (clear_of_ties
             (inject_Z (count (objects w c)
                          (Adopter.desired_species (SluggishAdopter.base a))) * x) ->
           text = format_1f
                    (inject_Z (count (objects w c)
                                 (Adopter.desired_species (SluggishAdopter.base a)))
                     * x))
       /\ float (PyStr text) = Ok k
       /\ (inject_Z (count (objects w c)
                       (Adopter.desired_species (SluggishAdopter.base a))) * x
           - (1 # 10) < k
           < inject_Z (count (objects w c)
                         (Adopter.desired_species (SluggishAdopter.base a))) * x
             + (1 # 10))%Q
       /\ ((distance2 a (objects w c) < 1)%Q ->
           x = ((1 # 10) + ((5 # 10) - (1 # 10)) * rand w 2%nat)%Q)
       /\ ((1 <= distance2 a (objects w c) < 9)%Q ->
           x = 1%Q
           /\ text = (decimal (count (objects w c)
                                 (Adopter.desired_species (SluggishAdopter.base a)))
                      ++ ".0")%string)
       /\ ((9 <= distance2 a (objects w c) < 25)%Q ->
           x = ((7 # 10) + ((9 # 10) - (7 # 10)) * rand w 0%nat)%Q)
       /\ ((25 <= distance2 a (objects w c) < 49)%Q ->
           x = ((5 # 10) + ((7 # 10) - (5 # 10)) * rand w 1%nat)%Q)
       /\ ((49 <= distance2 a (objects w c))%Q ->
           x = ((1 # 10) + ((5 # 10) - (1 # 10)) * rand w 2%nat)%Q).
Proof.
  intros a c w.
  assert (whole_place (location (objects w c))) as H1
    by (exists 1, 1; repeat split).
  assert (whole_place (SluggishAdopter.location a)) as H2
    by (exists 1, 2; repeat split).
  assert (modest (count (objects w c)
                    (Adopter.desired_species (SluggishAdopter.base a)))) as H3
    by (split; [discriminate | reflexivity]).
  assert (forall i, 0 <= rand w i <= 1)%Q as H4
    by (intros i; simpl; split; discriminate).
  repeat (split; [assumption|]).
  exact (sluggish_score_table a c w H1 H2 H3 H4).
Defined.

Lemma selected_unit q (g : rng) :
  (forall i, 0 <= g i <= 1)%Q ->
  ((1 # 10) <= selected q (draw1 g) (draw2 g) (draw3 g) <= 1)%Q.
Proof.
  intros Hg. pose proof (Hg 0%nat). pose proof (Hg 1%nat). pose proof (Hg 2%nat).
  unfold selected, draw1, draw2, draw3.
  destruct (Qltb q 1); [lra|]. destruct (Qltb q 9); [lra|].
  destruct (Qltb q 25); [lra|]. destruct (Qltb q 49); lra.
Qed.

(** X9: when [random.random()] yields numbers from 0 to 1 and the count and
    the two places are in range, the score of a sluggish adopter reads as a
    number between a tenth of the count of the desired species, less 0.05
    for the rounding, and the count itself, at every distance. *)
Theorem sluggish_score_bounds (a : SluggishAdopter.t) (c : ref) (w : world) :
  (forall i, 0 <= rand w i <= 1)%Q ->
  in_range (IsSluggish a) (objects w c) ->
  exists v k,
    fst (get_score (IsSluggish a) c w) = Ok v /\ float v = Ok k
    /\ ((1 # 10) * inject_Z (count (objects w c)
                               (Adopter.desired_species (SluggishAdopter.base a)))
        - (1 # 20) <= k
        <= inject_Z (count (objects w c)
                       (Adopter.desired_species (SluggishAdopter.base a))))%Q.
Proof.
  intros Hg [[Hn _] _]. rewrite (sluggish_get_score_run a c w). simpl fst.
  set (n := count (objects w c) (Adopter.desired_species (SluggishAdopter.base a))) in *.
  pose proof (selected_unit (distance2 a (objects w c)) (rand w) Hg) as Hsel.
  set (x := selected _ _ _ _) in *.
  rewrite Zle_Qle in Hn. change (inject_Z 0) with 0%Q in Hn.
  destruct (float_score_format (inject_Z n * x)) as (k & Hk & E).
  eexists; exists k. split; [reflexivity|]. split; [exact Hk|]. split.
  - pose proof (tenths_near (inject_Z n * x)) as Hnear. rewrite E. nra.
  - refine (float_score_format_le _ n _ k Hk). nra.
Qed.

Lemma sluggish_score_bounds_witness :
  let a := SluggishAdopter.make (Adopter.make "Five" "Cat") (1, 2)%Q in
  (forall i, 0 <= rand demo_world i <= 1)%Q
  /\ in_range (IsSluggish a) (objects demo_world 2%nat)
  /\ exists v k,
       fst (get_score (IsSluggish a) 2%nat demo_world) = Ok v /\ float v = Ok k
       /\ ((1 # 10) * inject_Z (count (objects demo_world 2%nat)
                                  (Adopter.desired_species (SluggishAdopter.base a)))
           - (1 # 20) <= k
           <= inject_Z (count (objects demo_world 2%nat)
                          (Adopter.desired_species (SluggishAdopter.base a))))%Q.
Proof.
  intros a.
  assert (forall i, 0 <= rand demo_world i <= 1)%Q as H1
    by (intros i; simpl; split; discriminate).
  assert (in_range (IsSluggish a) (objects demo_world 2%nat)) as H2
    by in_range_holds.
  repeat (split; [assumption|]).
  exact (sluggish_score_bounds a 2%nat demo_world H1 H2).
Defined.

Example sluggish_far_away :
  fst (get_score adopter5 2%nat demo_world) = Ok (PyStr "12.0").
Proof. reflexivity. Qed.

(** ** Every class *)

(** X10: for numbers in range, [get_score] of every class returns at
    every center and in every state: no lookup misses, [min] never sees an
    empty list, no index is out of range.  What it returns is an int or a
    numeral with one decimal place.  Only a sluggish adopter touches the
    random module, and it takes exactly three draws per call. *)
Theorem get_score_never_raises (a : adopter) (c : ref) (w : world) :
  in_range a (objects w c) ->
  exists v,
    get_score a c w
    = (Ok v, if is_sluggish a
             then {| objects := objects w; rand := fun n => rand w (3 + n)%nat |}
             else w)
    /\ ((exists n, v = PyInt n)
        \/ (exists neg t, 0 <= t /\ v = PyStr (one_decimal neg t))).
Proof.
  intros _. destruct (get_score_run a c w) as (v & Hv & Hshape).
  exists v. split; [exact Hv|].
  destruct Hshape as [Hn | [x ->]]; [left; exact Hn | right].
  exists (Qltb x 0), (Z.abs (tenths x)). split; [lia | reflexivity].
Qed.

(** The script's sluggish adopter at its first center. *)
Lemma get_score_never_raises_witness :
  in_range adopter5 (objects demo_world 0%nat)
  /\ exists v,
       get_score adopter5 0%nat demo_world
       = (Ok v, if is_sluggish adopter5
                then {| objects := objects demo_world;
                        rand := fun n => rand demo_world (3 + n)%nat |}
                else demo_world)
       /\ ((exists n, v = PyInt n)
           \/ (exists neg t, 0 <= t /\ v = PyStr (one_decimal neg t))).
Proof.
  assert (in_range adopter5 (objects demo_world 0%nat)) as H
    by in_range_holds.
  split; [exact H|]. exact (get_score_never_raises adopter5 0%nat demo_world H).
Defined.

(** ** The rankings, entry by entry *)

Lemma center_ranking_run a l w :
  exists d sorted w',
    center_scores a l [] w = (Ok d, w') /\ scores_ok d
    /\ Permutation d sorted
    /\ get_ordered_adoption_center_list a l w
       = (Ok [(adopter_get_name a, sorted)], w')
    /\ objects w' = objects w.
Proof.
  destruct (center_scores_spec a l [] w scores_ok_empty)
    as (d & w' & Hr & Hw & Hok & _).
  destruct (sorted_reverse_spec d (proj1 Hok) (proj2 Hok)) as (s & Hs & Hperm & _).
  exists d, s, w'. repeat split; try assumption; try apply Hok.
  unfold get_ordered_adoption_center_list.
  unfold bind at 1. rewrite Hr. unfold bind, lift. rewrite Hs. reflexivity.
Qed.

Lemma adopter_ranking_run c l w :
  exists d sorted w',
    adopter_scores c l [] w = (Ok d, w') /\ scores_ok d
    /\ Permutation d sorted
    /\ (forall n, get_adopters_for_advertisement c l n w
                  = (Ok [(name (objects w c), slice_to sorted n)], w'))
    /\ objects w' = objects w.
Proof.
  destruct (adopter_scores_spec c l [] w scores_ok_empty)
    as (d & w' & Hr & Hw & Hok & _).
  destruct (sorted_reverse_spec d (proj1 Hok) (proj2 Hok)) as (s & Hs & Hperm & _).
  exists d, s, w'. repeat split; try assumption; try apply Hok.
  intros n. unfold get_adopters_for_advertisement.
  unfold bind at 1. rewrite Hr. unfold bind at 1. unfold lift. rewrite Hs.
  rewrite (bind_reads _ _ _ _ (reads_get_name c)). rewrite Hw. reflexivity.
Qed.

(** X12: neither ranking function changes a center: after either call,
    for any lists and any [n], every stored center is what it was. *)
Theorem rankings_leave_centers_unchanged :
  (forall a l w,
     objects (snd (get_ordered_adoption_center_list a l w)) = objects w)
  /\ (forall c l n w,
        objects (snd (get_adopters_for_advertisement c l n w)) = objects w).
Proof.
  split.
  - intros a l w.
    destruct (center_ranking_run a l w) as (d & s & w' & _ & _ & _ & -> & Hw).
    exact Hw.
  - intros c l n w.
    destruct (adopter_ranking_run c l w) as (d & s & w' & _ & _ & _ & Hr & Hw).
    rewrite Hr. exact Hw.
Qed.

(** X13: for scores in range, the ranking of centers holds every name of an
    input center exactly once, so it has as many entries as the input has
    distinct names; its entries are, for each such name, the name with the
    score [get_score] returned when the ranking called it for the last
    center of that name. *)
Theorem center_ranking_entries (a : adopter) (l : list ref) (w : world) :
  Forall (fun c => in_range a (objects w c)) l ->
  exists sorted_ac w',
    get_ordered_adoption_center_list a l w
    = (Ok [(adopter_get_name a, sorted_ac)], w')
    /\ NoDup (map fst sorted_ac)
    /\ (forall nm, In nm (map fst sorted_ac) <-> In nm (center_names w l))
    /\ List.length sorted_ac
       = List.length (nodup string_dec (center_names w l))
    /\ (forall e, In e sorted_ac <-> center_entry a l w e).
Proof.
  intros _.
  destruct (center_ranking_spec a l w) as (s & w' & Hr & _ & Hnames & Hnd & He & _).
  exists s, w'. repeat split; try assumption; try apply Hnames; try apply He.
  rewrite <- (length_map fst). apply distinct_count; assumption.
Qed.

(** The script's fearful adopter and its six centers. *)
Lemma center_ranking_entries_witness :
  let l := [0; 1; 2; 3; 4; 5]%nat in
  Forall (fun c => in_range adopter4 (objects demo_world c)) l
  /\ exists sorted_ac w',
       get_ordered_adoption_center_list adopter4 l demo_world
       = (Ok [(adopter_get_name adopter4, sorted_ac)], w')
       /\ NoDup (map fst sorted_ac)
       /\ (forall nm, In nm (map fst sorted_ac) <-> In nm (center_names demo_world l))
       /\ List.length sorted_ac
          = List.length (nodup string_dec (center_names demo_world l))
       /\ (forall e, In e sorted_ac <-> center_entry adopter4 l demo_world e).
Proof.
  intros l.
  assert (Forall (fun c => in_range adopter4 (objects demo_world c)) l) as H
    by in_range_holds.
  split; [exact H|]. exact (center_ranking_entries adopter4 l demo_world H).
Defined.

(** X14: for scores in range, the ranking of adopters, before it is cut to
    [n], holds every name of an input adopter exactly once and nothing
    else; its entries are, for each such name, the name with the score
    [get_score] returned when the ranking called it for the last adopter of
    that name; for [n >= 0] the result has [n] entries, or as many as the
    input has distinct names if that is less. *)
Theorem adopter_ranking_entries (c : ref) (l : list adopter) (w : world) :
  Forall (fun a => in_range a (objects w c)) l ->
  exists sorted_adopters w',
    (forall k : nat,
       get_adopters_for_advertisement c l (Z.of_nat k) w
       = (Ok [(name (objects w c), firstn k sorted_adopters)], w'))
    /\ NoDup (map fst sorted_adopters)
    /\ (forall nm, In nm (map fst sorted_adopters) <-> In nm (adopter_names l))
    /\ (forall k : nat,
          List.length (firstn k sorted_adopters)
          = Nat.min k (List.length (nodup string_dec (adopter_names l))))
    /\ (forall e, In e sorted_adopters <-> adopter_entry c l w e).
Proof.
  intros _.
  destruct (adopter_ranking_spec c l w)
    as (s & w' & Hr & _ & Hnames & Hnd & He & _).
  exists s, w'. repeat split; try assumption; try apply Hnames; try apply He.
  - intros k. rewrite Hr, slice_to_nat. reflexivity.
  - intros k. rewrite length_firstn. f_equal.
    rewrite <- (length_map fst). apply distinct_count; assumption.
Qed.

(** The script's six adopters at its first center. *)
Lemma adopter_ranking_entries_witness :
  let l := [adopter1; adopter2; adopter3; adopter4; adopter5; adopter6] in
  Forall (fun a => in_range a (objects demo_world 0%nat)) l
  /\ exists sorted_adopters w',
       (forall k : nat,
          get_adopters_for_advertisement 0%nat l (Z.of_nat k) demo_world
          = (Ok [(name (objects demo_world 0%nat), firstn k sorted_adopters)], w'))
       /\ NoDup (map fst sorted_adopters)
       /\ (forall nm, In nm (map fst sorted_adopters) <-> In nm (adopter_names l))
       /\ (forall k : nat,
             List.length (firstn k sorted_adopters)
             = Nat.min k (List.length (nodup string_dec (adopter_names l))))
       /\ (forall e, In e sorted_adopters <-> adopter_entry 0%nat l demo_world e).
Proof.
  intros l.
  assert (Forall (fun a => in_range a (objects demo_world 0%nat)) l) as H
    by in_range_holds.
  split; [exact H|]. exact (adopter_ranking_entries 0%nat l demo_world H).
Defined.

(** ** Lists of entities with distinct names *)

Lemma same_keys_length (l1 l2 : list string) :
  NoDup l1 -> NoDup l2 -> (forall x, In x l1 <-> In x l2) ->
  List.length l1 = List.length l2.
Proof.
  intros H1 H2 H. apply Permutation_length. apply NoDup_Permutation; assumption.
Qed.

Lemma NoDup_app_last {A} (l1 : list A) x l2 :
  NoDup (l1 ++ x :: l2) -> ~ In x l2.
Proof.
  intros H Hin. apply NoDup_remove_2 in H. apply H.
  apply in_or_app. right. exact Hin.
Qed.

(** X15: when the centers of the list have pairwise distinct names and the
    scores are in range, the ranking has one entry per center of the list,
    and every center of the list has its own entry: its name with the score
    [get_score] returns for that center after the calls for the centers
    listed before it, three draws each if the adopter is sluggish. *)
Theorem distinct_centers_all_ranked (a : adopter) (l : list ref) (w : world) :
  Forall (fun c => in_range a (objects w c)) l ->
  NoDup (center_names w l) ->
  exists sorted_ac w',
    get_ordered_adoption_center_list a l w
    = (Ok [(adopter_get_name a, sorted_ac)], w')
    /\ List.length sorted_ac = List.length l
    /\ (forall l1 c l2,
          l = l1 ++ c :: l2 ->
          exists v,
            fst (get_score a c
                   (draws (if is_sluggish a then List.length l1 else 0) w)) = Ok v
            /\ In (name (objects w c), v) sorted_ac).
Proof.
  intros _ Hdistinct.
  destruct (center_ranking_spec a l w) as (s & w' & Hr & _ & Hnames & Hnd & He & _).
  exists s, w'. split; [exact Hr|]. split.
  - rewrite <- (length_map fst s).
    rewrite <- (length_map (fun c => name (objects w c)) l).
    apply same_keys_length; [exact Hnd | exact Hdistinct | exact Hnames].
  - intros l1 c l2 Hl.
    destruct (get_score_returns a c
                (draws (if is_sluggish a then List.length l1 else 0) w))
      as (v & w1 & Hs & _).
    exists v. rewrite Hs. split; [reflexivity|].
    apply He. exists l1, c, l2. simpl. rewrite Hs.
    repeat split; [exact Hl|].
    subst l. unfold center_names in *. rewrite map_app in Hdistinct.
    exact (NoDup_app_last _ _ _ Hdistinct).
Qed.

Lemma distinct_centers_all_ranked_witness :
  let l := [0; 1; 2; 3; 4; 5]%nat in
  Forall (fun c => in_range adopter5 (objects demo_world c)) l
  /\ NoDup (center_names demo_world l)
  /\ exists sorted_ac w',
       get_ordered_adoption_center_list adopter5 l demo_world
       = (Ok [(adopter_get_name adopter5, sorted_ac)], w')
       /\ List.length sorted_ac = List.length l
       /\ (forall l1 c l2,
             l = l1 ++ c :: l2 ->
             exists v,
               fst (get_score adopter5 c
                      (draws (if is_sluggish adopter5 then List.length l1 else 0)
                         demo_world)) = Ok v
               /\ In (name (objects demo_world c), v) sorted_ac).
Proof.
  intros l.
  assert (Forall (fun c => in_range adopter5 (objects demo_world c)) l) as H0
    by in_range_holds.
  assert (NoDup (center_names demo_world l)) as H.
  { repeat constructor; simpl; intuition discriminate. }
  split; [exact H0|]. split; [exact H|].
  exact (distinct_centers_all_ranked adopter5 l demo_world H0 H).
Defined.

(** X16: when the adopters of the list have pairwise distinct names and the
    scores are in range, the ranking before it is cut has one entry per
    adopter of the list, and every adopter of the list has its own entry:
    its name with the score [get_score] returns for that adopter after the
    calls for the adopters listed before it, three draws for each sluggish
    one. *)
Theorem distinct_adopters_all_ranked (c : ref) (l : list adopter) (w : world) :
  Forall (fun a => in_range a (objects w c)) l ->
  NoDup (adopter_names l) ->
  exists sorted_adopters w',
    (forall k : nat,
       get_adopters_for_advertisement c l (Z.of_nat k) w
       = (Ok [(name (objects w c), firstn k sorted_adopters)], w'))
    /\ List.length sorted_adopters = List.length l
    /\ (forall l1 a l2,
          l = l1 ++ a :: l2 ->
          exists v,
            fst (get_score a c (draws (sluggish_count l1) w)) = Ok v
            /\ In (adopter_get_name a, v) sorted_adopters).
Proof.
  intros _ Hdistinct.
  destruct (adopter_ranking_spec c l w)
    as (s & w' & Hr & _ & Hnames & Hnd & He & _).
  exists s, w'. split; [|split].
  - intros k. rewrite Hr, slice_to_nat. reflexivity.
  - rewrite <- (length_map fst s). rewrite <- (length_map adopter_get_name l).
    apply same_keys_length; [exact Hnd | exact Hdistinct | exact Hnames].
  - intros l1 a l2 Hl.
    destruct (get_score_returns a c (draws (sluggish_count l1) w))
      as (v & w1 & Hs & _).
    exists v. rewrite Hs. split; [reflexivity|].
    apply He. exists l1, a, l2. simpl. rewrite Hs.
    repeat split; [exact Hl|].
    subst l. unfold adopter_names in *. rewrite map_app in Hdistinct.
    exact (NoDup_app_last _ _ _ Hdistinct).
Qed.

Lemma distinct_adopters_all_ranked_witness :
  let l := [adopter1; adopter2; adopter3; adopter4; adopter5; adopter6] in
  Forall (fun a => in_range a (objects demo_world 0%nat)) l
  /\ NoDup (adopter_names l)
  /\ exists sorted_adopters w',
       (forall k : nat,
          get_adopters_for_advertisement 0%nat l (Z.of_nat k) demo_world
          = (Ok [(name (objects demo_world 0%nat), firstn k sorted_adopters)], w'))
       /\ List.length sorted_adopters = List.length l
       /\ (forall l1 a l2,
             l = l1 ++ a :: l2 ->
             exists v,
               fst (get_score a 0%nat (draws (sluggish_count l1) demo_world))
               = Ok v
               /\ In (adopter_get_name a, v) sorted_adopters).
Proof.
  intros l.
  assert (Forall (fun a => in_range a (objects demo_world 0%nat)) l) as H0
    by in_range_holds.
  assert (NoDup (adopter_names l)) as H.
  { repeat constructor; simpl; intuition discriminate. }
  split; [exact H0|]. split; [exact H|].
  exact (distinct_adopters_all_ranked 0%nat l demo_world H0 H).
Defined.

(** ** The order of the input list *)

Lemma get_score_static a c w :
  is_sluggish a = false ->
  get_score a c w = (Ok (score_at a c w), w) /\ score_shaped (score_at a c w).
Proof.
  intros Hs. destruct (get_score_run a c w) as (v & Hv & Hshape).
  rewrite Hs in Hv. unfold score_at. rewrite Hv. split; [reflexivity | exact Hshape].
Qed.

Lemma set_all_fresh es :
  forall d, NoDup (map fst d ++ map fst es) -> set_all es d = d ++ es.
Proof.
  unfold set_all. induction es as [|[k v] es IH]; intros d Hnd; simpl.
  - rewrite app_nil_r. reflexivity.
  - simpl in Hnd. rewrite dict_set_fresh.
    + rewrite IH.
      * rewrite <- app_assoc. reflexivity.
      * rewrite map_app, <- app_assoc. exact Hnd.
    + apply NoDup_remove_2 in Hnd. intros H. apply Hnd.
      apply in_or_app. left. exact H.
Qed.

Lemma center_scores_static a l :
  is_sluggish a = false ->
  forall d w,
    center_scores a l d w
    = (Ok (set_all (map (fun c => (name (objects w c), score_at a c w)) l) d), w).
Proof.
  intros Hs. induction l as [|c l IH]; intros d w; simpl; [reflexivity|].
  unfold bind at 1. rewrite (proj1 (get_score_static a c w Hs)).
  rewrite (bind_reads _ _ _ _ (reads_get_name c)). apply IH.
Qed.

Lemma adopter_scores_static c l :
  Forall (fun a => is_sluggish a = false) l ->
  forall d w,
    adopter_scores c l d w
    = (Ok (set_all (map (fun a => (adopter_get_name a, score_at a c w)) l) d), w).
Proof.
  induction 1 as [|a l Ha _ IH]; intros d w; simpl; [reflexivity|].
  unfold bind at 1. rewrite (proj1 (get_score_static a c w Ha)). apply IH.
Qed.

Lemma entries_shaped {X} (f : X -> string) (g : X -> pyval) l :
  (forall x, In x l -> score_shaped (g x)) ->
  Forall (fun e : string * pyval => score_shaped (snd e))
    (map (fun x => (f x, g x)) l).
Proof.
  intros H. apply Forall_forall. intros e He.
  apply in_map_iff in He. destruct He as (x & <- & Hx). apply H. exact Hx.
Qed.

(** Two lists of entries with distinct names, one a rearrangement of the
    other, give the same ranking. *)
Lemma sorted_entries_any_order {X} (f : X -> string) (g : X -> pyval) l l' :
  NoDup (map f l) -> (forall x, In x l -> score_shaped (g x)) ->
  Permutation l l' ->
  sorted_reverse sort_key (items (set_all (map (fun x => (f x, g x)) l') []))
  = sorted_reverse sort_key (items (set_all (map (fun x => (f x, g x)) l) [])).
Proof.
  intros Hnd Hsh Hp.
  assert (NoDup (map f l')) as Hnd'
    by (eapply Permutation_NoDup; [apply Permutation_map; exact Hp | exact Hnd]).
  rewrite !set_all_fresh by (simpl; rewrite map_map; simpl; assumption).
  simpl. apply sorted_reverse_any_order.
  - rewrite map_map. exact Hnd.
  - apply entries_shaped. exact Hsh.
  - apply Permutation_map. exact Hp.
Qed.

(** X17: for an adopter of any class but the sluggish one and centers with
    pairwise distinct names, the ranking of the centers does not depend on
    the order in which the centers are listed. *)
Theorem center_ranking_any_order (a : adopter) (l l' : list ref) (w : world) :
  is_sluggish a = false ->
  NoDup (center_names w l) ->
  Permutation l l' ->
  get_ordered_adoption_center_list a l' w
  = get_ordered_adoption_center_list a l w.
Proof.
  intros Hs Hnd Hp. unfold get_ordered_adoption_center_list.
  unfold bind at 1 3. rewrite !(center_scores_static a _ Hs).
  unfold bind, lift.
  rewrite (sorted_entries_any_order (fun c => name (objects w c))
             (fun c => score_at a c w) l l' Hnd); [reflexivity | | exact Hp].
  intros c _. apply (get_score_static a c w Hs).
Qed.

Lemma center_ranking_any_order_witness :
  let l := [0; 1; 2; 3; 4; 5]%nat in
  let l' := [5; 3; 1; 0; 2; 4]%nat in
  is_sluggish adopter4 = false
  /\ NoDup (center_names demo_world l)
  /\ Permutation l l'
  /\ get_ordered_adoption_center_list adopter4 l' demo_world
     = get_ordered_adoption_center_list adopter4 l demo_world.
Proof.
  intros l l'.
  assert (NoDup (center_names demo_world l)) as H1.
  { repeat constructor; simpl; intuition discriminate. }
  assert (Permutation l l') as H2.
  { apply NoDup_Permutation.
    - repeat constructor; simpl; intuition discriminate.
    - repeat constructor; simpl; intuition discriminate.
    - intros x. simpl. intuition. }
  split; [reflexivity|]. split; [exact H1|]. split; [exact H2|].
  exact (center_ranking_any_order adopter4 l l' demo_world eq_refl H1 H2).
Defined.

(** X18: for adopters of any class but the sluggish one with pairwise
    distinct names, the ranking of the adopters, and so its first [n]
    entries for every [n], does not depend on the order in which the
    adopters are listed. *)
Theorem adopter_ranking_any_order (c : ref) (l l' : list adopter) (n : Z)
    (w : world) :
  Forall (fun a => is_sluggish a = false) l ->
  NoDup (adopter_names l) ->
  Permutation l l' ->
  get_adopters_for_advertisement c l' n w
  = get_adopters_for_advertisement c l n w.
Proof.
  intros Hs Hnd Hp. unfold get_adopters_for_advertisement.
  assert (Forall (fun a => is_sluggish a = false) l') as Hs'
    by exact (Permutation_Forall Hp Hs).
  unfold bind at 1 4.
  rewrite (adopter_scores_static c l Hs), (adopter_scores_static c l' Hs').
  unfold bind at 1 3. unfold lift.
  rewrite (sorted_entries_any_order adopter_get_name
             (fun a => score_at a c w) l l' Hnd); [reflexivity | | exact Hp].
  intros a Ha. rewrite Forall_forall in Hs.
  apply (get_score_static a c w (Hs a Ha)).
Qed.

Lemma adopter_ranking_any_order_witness :
  let l := [adopter1; adopter2; adopter3; adopter4; adopter6] in
  let l' := [adopter6; adopter4; adopter3; adopter2; adopter1] in
  Forall (fun a => is_sluggish a = false) l
  /\ NoDup (adopter_names l)
  /\ Permutation l l'
  /\ get_adopters_for_advertisement 0%nat l' 3 demo_world
     = get_adopters_for_advertisement 0%nat l 3 demo_world.
Proof.
  intros l l'.
  assert (Forall (fun a => is_sluggish a = false) l) as H1
    by (repeat constructor).
  assert (NoDup (adopter_names l)) as H2.
  { repeat constructor; simpl; intuition discriminate. }
  assert (Permutation l l') as H3.
  { unfold l, l'. rewrite <- (rev_involutive [adopter6; _; _; _; _]).
    simpl. apply Permutation_rev. }
  split; [exact H1|]. split; [exact H2|]. split; [exact H3|].
  exact (adopter_ranking_any_order 0%nat l l' 3 demo_world H1 H2 H3).
Defined.

(** ** Entities that share a name: the last one wins *)

Lemma dict_set_in_entry {V} k (v : V) d : In (k, v) (dict_set k v d).
Proof.
  induction d as [|[k0 v0] d IH]; simpl; [auto|].
  destruct (String.eqb k k0); simpl; auto.
Qed.

Lemma dict_set_other_entry {V} k (v : V) k' (v' : V) d :
  k <> k' -> In (k, v) d -> In (k, v) (dict_set k' v' d).
Proof.
  intros Hne. induction d as [|[k0 v0] d IH]; simpl; [tauto|].
  destruct (String.eqb_spec k' k0) as [-> | Hne']; simpl.
  - intros [[= -> ->] | H]; [congruence | auto].
  - intros [E | H]; auto.
Qed.

Lemma set_all_keeps es :
  forall d k v, ~ In k (map fst es) -> In (k, v) d -> In (k, v) (set_all es d).
Proof.
  unfold set_all. induction es as [|[k' v'] es IH]; intros d k v Hk Hin; simpl.
  - exact Hin.
  - simpl in Hk. apply IH; [tauto|]. apply dict_set_other_entry; [|exact Hin].
    intros ->. tauto.
Qed.

Lemma set_all_last es1 k v es2 d :
  ~ In k (map fst es2) -> In (k, v) (set_all (es1 ++ (k, v) :: es2) d).
Proof.
  intros Hk. unfold set_all. rewrite fold_left_app. simpl.
  apply (set_all_keeps es2); [exact Hk|]. apply dict_set_in_entry.
Qed.

(** X19: for an adopter of any class but the sluggish one and scores in
    range, a center of the list whose name no later center of the list
    bears has its entry in the ranking: its name with the adopter's score
    at that center.  So when several centers share a name, the entry of
    that name carries the score at the last of them. *)
Theorem last_center_of_a_name_is_ranked (a : adopter) (l1 : list ref) (c : ref)
    (l2 : list ref) (w : world) :
  is_sluggish a = false ->
  Forall (fun c' => in_range a (objects w c')) (l1 ++ c :: l2) ->
  ~ In (name (objects w c)) (center_names w l2) ->
  exists sorted_ac,
    get_ordered_adoption_center_list a (l1 ++ c :: l2) w
    = (Ok [(adopter_get_name a, sorted_ac)], w)
    /\ In (name (objects w c), score_at a c w) sorted_ac
    /\ get_score a c w = (Ok (score_at a c w), w).
Proof.
  intros Hs _ Hlast.
  destruct (center_ranking_run a (l1 ++ c :: l2) w)
    as (d & s & w' & Hd & _ & Hp & Hr & _).
  rewrite (center_scores_static a _ Hs) in Hd. injection Hd as <- <-.
  exists s. split; [exact Hr|]. split; [|apply (get_score_static a c w Hs)].
  apply (Permutation_in _ Hp).
  rewrite map_app. simpl map. apply set_all_last.
  unfold center_names in Hlast. rewrite map_map. exact Hlast.
Qed.

Lemma last_center_of_a_name_is_ranked_witness :
  is_sluggish adopter2 = false
  /\ Forall (fun c' => in_range adopter2 (objects same_name_world c'))
       ([0%nat] ++ 1%nat :: [])
  /\ ~ In (name (objects same_name_world 1%nat)) (center_names same_name_world [])
  /\ exists sorted_ac,
       get_ordered_adoption_center_list adopter2 ([0%nat] ++ 1%nat :: [])
         same_name_world
       = (Ok [(adopter_get_name adopter2, sorted_ac)], same_name_world)
       /\ In (name (objects same_name_world 1%nat),
              score_at adopter2 1%nat same_name_world) sorted_ac
       /\ get_score adopter2 1%nat same_name_world
          = (Ok (score_at adopter2 1%nat same_name_world), same_name_world).
Proof.
  split; [reflexivity|].
  assert (Forall (fun c' => in_range adopter2 (objects same_name_world c'))
            ([0%nat] ++ 1%nat :: [])) as H0
    by in_range_holds.
  assert (~ In (name (objects same_name_world 1%nat))
            (center_names same_name_world [])) as H by (simpl; tauto).
  split; [exact H0|]. split; [exact H|].
  exact (last_center_of_a_name_is_ranked adopter2 [0%nat] 1%nat []
           same_name_world eq_refl H0 H).
Defined.

(** X20: among adopters of any class but the sluggish one, with scores in
    range, an adopter of the list whose name no later adopter of the list
    bears has its entry in the ranking before it is cut: its name with its
    score at the center.  So when several adopters share a name, the entry
    of that name carries the score of the last of them. *)
Theorem last_adopter_of_a_name_is_ranked (c : ref) (l1 : list adopter)
    (a : adopter) (l2 : list adopter) (w : world) :
  Forall (fun x => is_sluggish x = false) (l1 ++ a :: l2) ->
  Forall (fun x => in_range x (objects w c)) (l1 ++ a :: l2) ->
  ~ In (adopter_get_name a) (adopter_names l2) ->
  exists sorted_adopters,
    (forall k : nat,
       get_adopters_for_advertisement c (l1 ++ a :: l2) (Z.of_nat k) w
       = (Ok [(name (objects w c), firstn k sorted_adopters)], w))
    /\ In (adopter_get_name a, score_at a c w) sorted_adopters
    /\ get_score a c w = (Ok (score_at a c w), w).
Proof.
  intros Hs _ Hlast.
  destruct (adopter_ranking_run c (l1 ++ a :: l2) w)
    as (d & s & w' & Hd & _ & Hp & Hr & _).
  rewrite (adopter_scores_static c _ Hs) in Hd. injection Hd as <- <-.
  assert (is_sluggish a = false) as Ha.
  { rewrite Forall_forall in Hs. apply Hs. apply in_or_app. right. left. reflexivity. }
  exists s. split; [|split; [|apply (get_score_static a c w Ha)]].
  - intros k. rewrite Hr, slice_to_nat. reflexivity.
  - apply (Permutation_in _ Hp).
    rewrite map_app. simpl map. apply set_all_last.
    unfold adopter_names in Hlast. rewrite map_map. exact Hlast.
Qed.

Lemma last_adopter_of_a_name_is_ranked_witness :
  let a := IsAdopter (Adopter.make "Two" "Dog") in
  Forall (fun x => is_sluggish x = false) ([adopter2] ++ a :: [])
  /\ Forall (fun x => in_range x (objects same_name_world 0%nat))
       ([adopter2] ++ a :: [])
  /\ ~ In (adopter_get_name a) (adopter_names [])
  /\ exists sorted_adopters,
       (forall k : nat,
          get_adopters_for_advertisement 0%nat ([adopter2] ++ a :: [])
            (Z.of_nat k) same_name_world
          = (Ok [(name (objects same_name_world 0%nat),
                  firstn k sorted_adopters)], same_name_world))
       /\ In (adopter_get_name a, score_at a 0%nat same_name_world)
             sorted_adopters
       /\ get_score a 0%nat same_name_world
          = (Ok (score_at a 0%nat same_name_world), same_name_world).
Proof.
  intros a.
  assert (Forall (fun x => is_sluggish x = false) ([adopter2] ++ a :: [])) as H1
    by (repeat constructor).
  assert (Forall (fun x => in_range x (objects same_name_world 0%nat))
            ([adopter2] ++ a :: [])) as H0
    by in_range_holds.
  assert (~ In (adopter_get_name a) (adopter_names [])) as H2 by (simpl; tauto).
  split; [exact H1|]. split; [exact H0|]. split; [exact H2|].
  exact (last_adopter_of_a_name_is_ranked 0%nat [adopter2] a [] same_name_world
           H1 H0 H2).
Defined.
